(** * A shallow embedding of the safe calculator (calc.py, calc_gui.py)

    The two Python files share one design: the expression text is handed to
    Python's [ast.parse], and a [NodeVisitor] subclass, [SafeEval], walks the
    tree.  The development below follows that structure:

    - [Py]      : the part of the Python runtime the calculator relies on
                  (numbers, exceptions, arithmetic, the [math] functions,
                  number formatting);
    - [Ast]     : the syntax trees of the [ast] module and a parser for the
                  expression fragment the calculator is used with;
    - [Calc]    : calc.py (the line interface);
    - [CalcGui] : calc_gui.py (the graphical interface);
    - the theorems about both.

    The runtime is CPython's (3.8 to 3.13: literals are [ast.Constant]
    nodes).  Its resource limits (recursion depth, memory) are left out. *)

From Stdlib Require Import ZArith Lia Bool List Ascii String Floats.
From stdpp Require Import base option gmap strings.
Import ListNotations.

#[local] Open Scope string_scope.
#[local] Open Scope Z_scope.

(** ** Python exceptions and results *)

Module Py.

(** The exception classes the calculator can meet.  [ValueError] carries its
    message: the evaluator tells its own rejections apart by message only.
    [SyntaxError] also stands for its subclass [IndentationError]. *)
Inductive exn :=
| ValueError (msg : string)
| TypeError
| ZeroDivisionError
| OverflowError
| SyntaxError.

(** A computation either returns or raises. *)
Inductive result (A : Type) :=
| Ok (a : A)
| Raise (e : exn).
Arguments Ok {A} a.
Arguments Raise {A} e.

#[export] Instance result_ret : MRet result := fun _ a => Ok a.
#[export] Instance result_bind : MBind result := fun _ _ f r =>
  match r with
  | Ok a => f a
  | Raise e => Raise e
  end.

(** [try: c  except Exception: pass], followed by [k]. *)
Definition try_pass {A} (c : result (option A)) (k : result A) : result A :=
  match c with
  | Ok (Some a) => Ok a
  | Ok None | Raise _ => k
  end.

(** [[f(a) for a in l]]: left to right, the first exception escapes. *)
Definition mapM {A B} (f : A → result B) : list A → result (list B) :=
  fix go l :=
    match l with
    | [] => Ok []
    | a :: l' =>
        match f a with
        | Ok b => match go l' with Ok bs => Ok (b :: bs) | Raise e => Raise e end
        | Raise e => Raise e
        end
    end.

(** ** Python values

    The objects that can flow through the evaluator: numeric constants of the
    source text ([bool] is a subclass of [int]), the bindings and constants
    (floats), [None] (what [NodeVisitor.generic_visit] returns) and the
    complex numbers float exponentiation can produce. *)
Inductive value :=
| VNone
| VBool (b : bool)
| VInt (z : Z)
| VFloat (f : float)
| VComplex (re im : float).

(** ** The platform

    What the C library and the interpreter's configuration decide.  The
    elementary functions are not correctly rounded, so their values are those
    of the libm in use; [errno] is what the C function left behind. *)
Inductive errno := ENone | EDOM | ERANGE.

Record platform := {
  m_sin : float → float;
  m_cos : float → float;
  m_tan : float → float;
  m_log : float → float;         (* C log on a positive finite argument *)
  m_log10 : float → float;       (* C log10 on a positive finite argument *)
  m_pow : float → float → float * errno;      (* C pow *)
  m_c_pow : float * float → float * float → (float * float) * errno;
                                 (* the general case of complex power *)
  int_max_str_digits : nat       (* sys.get_int_max_str_digits(); 0 = no limit *)
}.

(** ** Floating-point helpers

    Python's [float] is the IEEE 754 binary64 format: the kernel's primitive
    floats.  What is exact in IEEE arithmetic is computed here, through the
    mantissa and exponent of the number. *)

(** [float(z)]'s value: the nearest double, ties to even; infinite when [z] is
    out of range. *)
Definition float_of_Z (z : Z) : float :=
  SF2Prim (binary_normalize prec emax z 0 false).

(** Whether a finite float has no fractional part ([float.is_integer]). *)
Definition is_integer (f : float) : bool :=
  match Prim2SF f with
  | S754_zero _ => true
  | S754_finite _ m e => (0 <=? e) || (Z.pos m mod 2 ^ (- e) =? 0)
  | _ => false
  end.

(** The integer part of a finite float, rounded towards zero. *)
Definition trunc (f : float) : option Z :=
  match Prim2SF f with
  | S754_zero _ => Some 0
  | S754_finite s m e =>
      let a := if 0 <=? e then Z.pos m * 2 ^ e else Z.pos m / 2 ^ (- e) in
      Some (if s then - a else a)
  | _ => None
  end.

(** The largest integer below a finite float. *)
Definition floor_Z (f : float) : option Z :=
  match Prim2SF f with
  | S754_zero _ => Some 0
  | S754_finite s m e =>
      let n := if s then Z.neg m else Z.pos m in
      Some (if 0 <=? e then n * 2 ^ e else n / 2 ^ (- e))
  | _ => None
  end.

(** C's [floor]: NaN, infinities, zeros and integers are returned as they are. *)
Definition floor (f : float) : float :=
  if is_integer f then f
  else match floor_Z f with
       | Some z => float_of_Z z
       | None => f
       end.

(** C's [copysign]. *)
Definition copysign (x y : float) : float :=
  if get_sign y then (- abs x)%float else abs x.

(** C's [fmod]: the remainder of the division truncated towards zero, which
    is exact and has the sign of the dividend. *)
Definition fmod (x y : float) : float :=
  match Prim2SF x, Prim2SF y with
  | S754_nan, _ | _, S754_nan => nan
  | S754_infinity _, _ => nan
  | _, S754_zero _ => nan
  | _, S754_infinity _ => x
  | S754_zero _, _ => x
  | S754_finite sx mx ex, S754_finite _ my ey =>
      let e := Z.min ex ey in
      let r := (Z.pos mx * 2 ^ (ex - e)) mod (Z.pos my * 2 ^ (ey - e)) in
      if r =? 0 then (if sx then neg_zero else zero)
      else SF2Prim (binary_normalize prec emax (if sx then - r else r) e false)
  end.

(** [fmod(fabs(x), 2.0) == 1.0], CPython's [DOUBLE_IS_ODD_INTEGER]. *)
Definition is_odd_integer (x : float) : bool :=
  PrimFloat.eqb (fmod (abs x) 2) 1.

(** [f == z] for a float and an int: Python compares the exact values. *)
Definition float_eq_Z (f : float) (z : Z) : bool :=
  match trunc f with
  | Some t => is_integer f && (t =? z)
  | None => false
  end.

(** Correctly rounded quotient of two integers (the value of [a / b] on
    ints), infinite when out of range.  [b] is not zero. *)
Definition Z_to_SF (z : Z) : spec_float :=
  match z with
  | Z0 => S754_zero false
  | Z.pos p => S754_finite false p 0
  | Z.neg p => S754_finite true p 0
  end.

Definition int_quotient (a b : Z) : float :=
  SF2Prim (SFdiv prec emax (Z_to_SF a) (Z_to_SF b)).

(** ** Arithmetic of the numeric types (CPython's [longobject.c],
    [floatobject.c] and [complexobject.c]) *)

(** The operators of [ast.BinOp] and [ast.UnaryOp]. *)
Inductive operator :=
| Add | Sub | Mult | MatMult | Div | Mod | Pow
| LShift | RShift | BitOr | BitXor | BitAnd | FloorDiv.

Inductive unaryop := Invert | Not | UAdd | USub.

#[local] Open Scope float_scope.

(** [PyLong_AsDouble]: an int too large for a double is an [OverflowError]. *)
Definition to_float (z : Z) : result float :=
  let f := float_of_Z z in
  if is_infinity f then Raise OverflowError else Ok f.

(** [_Py_ADJUST_ERANGE1] and [_Py_ADJUST_ERANGE2]: an infinite result counts
    as a range error, and a range error without one (underflow) is dropped. *)
Definition adjust_erange1 (x : float) (err : errno) : errno :=
  if is_infinity x then match err with ENone => ERANGE | _ => err end
  else match err with ERANGE => ENone | _ => err end.

Definition adjust_erange2 (x y : float) (err : errno) : errno :=
  if is_infinity x || is_infinity y
  then match err with ENone => ERANGE | _ => err end
  else match err with ERANGE => ENone | _ => err end.

Definition cplx : Type := float * float.

Definition c_1 : cplx := (1, 0).

Definition c_prod (a b : cplx) : cplx :=
  (a.1 * b.1 - a.2 * b.2, a.1 * b.2 + a.2 * b.1).

(** [_Py_c_quot]: the quotient, and [EDOM] on a zero divisor. *)
Definition c_quot (a b : cplx) : cplx * errno :=
  let abs_breal := if b.1 <? 0 then - b.1 else b.1 in
  let abs_bimag := if b.2 <? 0 then - b.2 else b.2 in
  if abs_bimag <=? abs_breal then
    if abs_breal =? 0 then ((0, 0), EDOM)
    else
      let ratio := b.2 / b.1 in
      let denom := b.1 + b.2 * ratio in
      (((a.1 + a.2 * ratio) / denom, (a.2 - a.1 * ratio) / denom), ENone)
  else if abs_breal <=? abs_bimag then
    let ratio := b.1 / b.2 in
    let denom := b.1 * ratio + b.2 in
    (((a.1 * ratio + a.2) / denom, (a.2 * ratio - a.1) / denom), ENone)
  else ((nan, nan), ENone).

(** [c_powu]: binary powering, low bit of the exponent first. *)
Fixpoint c_powu_loop (r p : cplx) (n : positive) : cplx :=
  match n with
  | xH => c_prod r p
  | xO n' => c_powu_loop r (c_prod p p) n'
  | xI n' => c_powu_loop (c_prod r p) (c_prod p p) n'
  end.

Definition c_powu (x : cplx) (n : Z) : cplx :=
  match n with
  | Z.pos n => c_powu_loop c_1 x n
  | _ => c_1
  end.

Definition c_powi (x : cplx) (n : Z) : cplx * errno :=
  if (0 <? n)%Z then (c_powu x n, ENone) else c_quot c_1 (c_powu x (- n)).

(** [_Py_c_pow]: the two trivial cases, else the libm computation. *)
Definition c_pow (M : platform) (a b : cplx) : cplx * errno :=
  if (b.1 =? 0) && (b.2 =? 0) then (c_1, ENone)
  else if (a.1 =? 0) && (a.2 =? 0) then
    ((0, 0), if negb (b.2 =? 0) || (b.1 <? 0) then EDOM else ENone)
  else m_c_pow M a b.

(** [complex.__pow__]. *)
Definition complex_pow (M : platform) (a b : cplx) : result value :=
  let '(p, err) :=
    if (b.2 =? 0) && (b.1 =? floor b.1) && (abs b.1 <=? 100)
    then c_powi a (default 0%Z (trunc b.1))
    else c_pow M a b in
  match adjust_erange2 p.1 p.2 err with
  | EDOM => Raise ZeroDivisionError
  | ERANGE => Raise OverflowError
  | ENone => Ok (VComplex p.1 p.2)
  end.

(** [float.__pow__] ([float_pow]). *)
Definition float_pow (M : platform) (iv iw : float) : result value :=
  if iw =? 0 then Ok (VFloat 1)
  else if is_nan iv then Ok (VFloat iv)
  else if is_nan iw then Ok (VFloat (if iv =? 1 then 1 else iw))
  else if is_infinity iw then
    let iv := abs iv in
    if iv =? 1 then Ok (VFloat 1)
    else if Bool.eqb (0 <? iw) (1 <? iv) then Ok (VFloat (abs iw))
    else Ok (VFloat 0)
  else if is_infinity iv then
    let iw_is_odd := is_odd_integer iw in
    if 0 <? iw then Ok (VFloat (if iw_is_odd then iv else abs iv))
    else Ok (VFloat (if iw_is_odd then copysign 0 iv else 0))
  else if iv =? 0 then
    if iw <? 0 then Raise ZeroDivisionError
    else Ok (VFloat (if is_odd_integer iw then iv else 0))
  else if (iv <? 0) && negb (iw =? floor iw) then
    (* Negative numbers raised to fractional powers become complex. *)
    complex_pow M (iv, 0) (iw, 0)
  else
    let negate_result := (iv <? 0) && is_odd_integer iw in
    let iv := if iv <? 0 then - iv else iv in
    if iv =? 1 then Ok (VFloat (if negate_result then -1 else 1))
    else
      let '(ix, err) := m_pow M iv iw in
      let err := adjust_erange1 ix err in
      let ix := if negate_result then - ix else ix in
      match err with
      | ENone => Ok (VFloat ix)
      | ERANGE => Raise OverflowError
      | EDOM => Raise (ValueError "[Errno 33] Numerical argument out of domain")
      end.

(** [float.__mod__] ([float_rem]) and [float.__floordiv__]
    ([float_floor_div] over [_float_div_mod]); the divisor is not zero. *)
Definition float_rem (vx wx : float) : float :=
  let m := fmod vx wx in
  if negb (m =? 0) then
    if negb (Bool.eqb (wx <? 0) (m <? 0)) then m + wx else m
  else copysign 0 wx.

Definition float_floor_div (vx wx : float) : float :=
  let m := fmod vx wx in
  let div := (vx - m) / wx in
  let div :=
    if negb (m =? 0) && negb (Bool.eqb (wx <? 0) (m <? 0))
    then div - 1 else div in
  if negb (div =? 0) then
    let floordiv := floor div in
    if 0.5 <? div - floordiv then floordiv + 1 else floordiv
  else copysign 0 (vx / wx).

(** Arithmetic on two floats. *)
Definition float_binop (M : platform) (op : operator) (a b : float)
  : result value :=
  match op with
  | Add => Ok (VFloat (a + b))
  | Sub => Ok (VFloat (a - b))
  | Mult => Ok (VFloat (a * b))
  | Div => if b =? 0 then Raise ZeroDivisionError else Ok (VFloat (a / b))
  | FloorDiv =>
      if b =? 0 then Raise ZeroDivisionError
      else Ok (VFloat (float_floor_div a b))
  | Mod => if b =? 0 then Raise ZeroDivisionError else Ok (VFloat (float_rem a b))
  | Pow => float_pow M a b
  | _ => Raise TypeError
  end.

(** Arithmetic on two ints.  [Z.div] and [Z.modulo] round towards minus
    infinity, as Python's [//] and [%] do. *)
Definition int_binop (M : platform) (op : operator) (a b : Z) : result value :=
  match op with
  | Add => Ok (VInt (a + b))
  | Sub => Ok (VInt (a - b))
  | Mult => Ok (VInt (a * b))
  | Div =>
      if (b =? 0)%Z then Raise ZeroDivisionError
      else let q := int_quotient a b in
           if is_infinity q then Raise OverflowError else Ok (VFloat q)
  | FloorDiv => if (b =? 0)%Z then Raise ZeroDivisionError else Ok (VInt (a / b))
  | Mod => if (b =? 0)%Z then Raise ZeroDivisionError else Ok (VInt (a mod b))
  | Pow =>
      if (0 <=? b)%Z then Ok (VInt (a ^ b))
      else x ← to_float a; y ← to_float b; float_pow M x y
  | _ => Raise TypeError
  end.

(** Arithmetic on two complex numbers. *)
Definition complex_binop (M : platform) (op : operator) (a b : cplx)
  : result value :=
  match op with
  | Add => Ok (VComplex (a.1 + b.1) (a.2 + b.2))
  | Sub => Ok (VComplex (a.1 - b.1) (a.2 - b.2))
  | Mult => let p := c_prod a b in Ok (VComplex p.1 p.2)
  | Div =>
      match c_quot a b with
      | (q, EDOM) => Raise ZeroDivisionError
      | (q, _) => Ok (VComplex q.1 q.2)
      end
  | Pow => complex_pow M a b
  | _ => Raise TypeError
  end.

(** A value as the numeric operators see it: [None] is no number, a [bool]
    is the int 0 or 1. *)
Inductive num :=
| NInt (z : Z)
| NFloat (f : float)
| NComplex (c : cplx).

Definition as_num (v : value) : option num :=
  match v with
  | VNone => None
  | VBool b => Some (NInt (Z.b2z b))
  | VInt z => Some (NInt z)
  | VFloat f => Some (NFloat f)
  | VComplex re im => Some (NComplex (re, im))
  end.

Definition num_to_float (n : num) : result float :=
  match n with
  | NInt z => to_float z
  | NFloat f => Ok f
  | NComplex _ => Raise TypeError
  end.

Definition num_to_complex (n : num) : result cplx :=
  match n with
  | NInt z => f ← to_float z; Ok (f, 0)
  | NFloat f => Ok (f, 0)
  | NComplex c => Ok c
  end.

(** [a op b]: ints stay ints, a float operand makes the operation a float
    one, a complex operand a complex one. *)
Definition binop (M : platform) (op : operator) (a b : value) : result value :=
  match as_num a, as_num b with
  | Some (NInt x), Some (NInt y) => int_binop M op x y
  | Some (NComplex x), Some y => y' ← num_to_complex y; complex_binop M op x y'
  | Some x, Some (NComplex y) => x' ← num_to_complex x; complex_binop M op x' y
  | Some x, Some y =>
      x' ← num_to_float x; y' ← num_to_float y; float_binop M op x' y'
  | _, _ => Raise TypeError
  end.

(** [+v] and [-v]. *)
Definition pos (v : value) : result value :=
  match as_num v with
  | Some (NInt z) => Ok (VInt z)
  | Some (NFloat f) => Ok (VFloat f)
  | Some (NComplex c) => Ok (VComplex c.1 c.2)
  | None => Raise TypeError
  end.

Definition neg (v : value) : result value :=
  match as_num v with
  | Some (NInt z) => Ok (VInt (- z))
  | Some (NFloat f) => Ok (VFloat (- f))
  | Some (NComplex c) => Ok (VComplex (- c.1) (- c.2))
  | None => Raise TypeError
  end.

(** ** The [math] module ([mathmodule.c]) *)

(** [PyFloat_AsDouble], also the builtin [float(x)] on these values. *)
Definition as_double (v : value) : result float :=
  match as_num v with
  | Some n => num_to_float n
  | None => Raise TypeError
  end.

(** [math_1] without overflow: a NaN from a number, or an infinity from a
    finite number, is a domain error. *)
Definition math_1 (func : float → float) (arg : value) : result value :=
  x ← as_double arg;
  let r := func x in
  if is_nan r && negb (is_nan x) then Raise (ValueError "math domain error")
  else if is_infinity r && is_finite x then Raise (ValueError "math domain error")
  else Ok (VFloat r).

(** [m_log] and [m_log10]: the C function is asked on positive finite
    arguments only. *)
Definition log_wrapper (log : float → float) (x : float) : float :=
  if is_finite x then
    if 0 <? x then log x
    else if x =? 0 then neg_infinity else nan
  else if is_nan x then x
  else if 0 <? x then x
  else nan.

(** [_PyLong_Frexp] on a positive int: [z] is about [x * 2 ^ e] with
    [0.5 <= x < 1]. *)
Definition long_frexp (z : Z) : float * Z :=
  let e := (Z.log2 z + 1)%Z in
  let x := SF2Prim (binary_normalize prec emax z (- e) false) in
  if x =? 1 then (0.5, (e + 1)%Z) else (x, e).

(** [loghelper]: an int argument is handled apart, so that the logarithm
    of an int beyond the doubles exists. *)
Definition loghelper (func : float → float) (arg : value) : result value :=
  match arg with
  | VBool _ | VInt _ =>
      let z := match arg with VBool b => Z.b2z b | VInt z => z | _ => 0%Z end in
      if (z <=? 0)%Z then Raise (ValueError "math domain error")
      else
        let x := float_of_Z z in
        if is_infinity x then
          let '(x, e) := long_frexp z in
          Ok (VFloat (func x + func 2 * float_of_Z e))
        else Ok (VFloat (func x))
  | _ => math_1 func arg
  end.

(** The six functions of [ALLOWED_FUNCS]. *)
Inductive mathfn := math_sqrt | math_sin | math_cos | math_tan | math_log10 | math_log.

(** [fn( *args )].  Five of the functions take exactly one argument;
    [math.log] takes an optional base. *)
Definition call (M : platform) (fn : mathfn) (args : list value) : result value :=
  match fn, args with
  | math_sqrt, [x] => math_1 PrimFloat.sqrt x
  | math_sin, [x] => math_1 (m_sin M) x
  | math_cos, [x] => math_1 (m_cos M) x
  | math_tan, [x] => math_1 (m_tan M) x
  | math_log10, [x] => loghelper (log_wrapper (m_log10 M)) x
  | math_log, [x] => loghelper (log_wrapper (m_log M)) x
  | math_log, [x; base] =>
      num ← loghelper (log_wrapper (m_log M)) x;
      den ← loghelper (log_wrapper (m_log M)) base;
      binop M Div num den
  | _, _ => Raise TypeError
  end.

(** ** Conversions and comparison *)

(** The builtin [int(x)]. *)
Definition int (v : value) : result Z :=
  match v with
  | VBool b => Ok (Z.b2z b)
  | VInt z => Ok z
  | VFloat f =>
      if is_nan f then Raise (ValueError "cannot convert float NaN to integer")
      else match trunc f with
           | Some z => Ok z
           | None => Raise OverflowError
           end
  | VNone | VComplex _ _ => Raise TypeError
  end.

(** [v == z] for an int [z]. *)
Definition eq_int (v : value) (z : Z) : bool :=
  match v with
  | VNone => false
  | VBool b => (Z.b2z b =? z)%Z
  | VInt x => (x =? z)%Z
  | VFloat f => float_eq_Z f z
  | VComplex re im => (im =? 0) && float_eq_Z re z
  end.

(** ** Text of numbers *)

#[local] Close Scope float_scope.

Definition digit (d : Z) : ascii := ascii_of_nat (48 + Z.to_nat d).

(** The decimal digits of a natural number, in front of [acc]. *)
Fixpoint digits_of (fuel : nat) (n : Z) (acc : list ascii) : list ascii :=
  match fuel with
  | O => acc
  | S fuel' =>
      if n <? 10 then digit n :: acc
      else digits_of fuel' (n / 10) (digit (n mod 10) :: acc)
  end.

(** The decimal text of an int, as [str] gives it without a limit. *)
Definition decimal (z : Z) : string :=
  let ds := digits_of (S (Z.to_nat (Z.log2 (Z.abs z)))) (Z.abs z) [] in
  string_of_list_ascii (if z <? 0 then "-"%char :: ds else ds).

(** [str(z)]: since CPython 3.11 an int of more decimal digits than the
    configured limit raises [ValueError] (no limit when it is 0). *)
Definition str_int (M : platform) (z : Z) : result string :=
  let limit := int_max_str_digits M in
  if negb (limit =? 0)%nat && (limit <? String.length (decimal (Z.abs z)))%nat
  then Raise (ValueError "Exceeds the limit for integer string conversion")
  else Ok (decimal z).

(** The last [w] decimal digits of [n], most significant first. *)
Fixpoint digits_fixed (w : nat) (n : Z) : list ascii :=
  match w with
  | O => []
  | S w' => digits_fixed w' (n / 10) ++ [digit (n mod 10)]
  end.

(** Decimal exponent of the positive rational [num / den]: the [x] with
    [10 ^ x <= num / den < 10 ^ (x + 1)]. *)
Fixpoint exp10_up (fuel : nat) (num den : Z) : Z :=
  match fuel with
  | O => 0
  | S fuel' =>
      if den * 10 <=? num then 1 + exp10_up fuel' num (den * 10) else 0
  end.

Fixpoint exp10_down (fuel : nat) (num den : Z) : Z :=
  match fuel with
  | O => 1
  | S fuel' =>
      if num * 10 <? den then 1 + exp10_down fuel' (num * 10) den else 1
  end.

Definition decimal_exponent (num den : Z) : Z :=
  if den <=? num then exp10_up (S (Z.to_nat (Z.log2 num))) num den
  else - exp10_down (S (Z.to_nat (Z.log2 den))) num den.

(** Quotient rounded to the nearest integer, ties to even. *)
Definition div_half_even (n d : Z) : Z :=
  let q := n / d in
  match 2 * (n mod d) ?= d with
  | Lt => q
  | Gt => q + 1
  | Eq => if Z.even q then q else q + 1
  end.

(** [num / den] rounded to 12 significant digits: the digits and the
    decimal exponent of the first one. *)
Definition round_sig12 (num den : Z) : list ascii * Z :=
  let x := decimal_exponent num den in
  let n :=
    if x <=? 11 then div_half_even (num * 10 ^ (11 - x)) den
    else div_half_even num (den * 10 ^ (x - 11)) in
  if 10 ^ 12 <=? n then (digits_fixed 12 (10 ^ 11), x + 1)
  else (digits_fixed 12 n, x).

Fixpoint strip_zeros (l : list ascii) : list ascii :=
  match l with
  | [] => []
  | c :: l' =>
      match strip_zeros l' with
      | [] => if Ascii.eqb c "0" then [] else [c]
      | r => c :: r
      end
  end.

Definition zeros (n : nat) : list ascii := repeat "0"%char n.

(** The exponent of the scientific notation: a sign and at least two digits. *)
Definition exponent_text (x : Z) : list ascii :=
  let a := list_ascii_of_string (decimal (Z.abs x)) in
  (if x <? 0 then "-"%char else "+"%char)
    :: (if Z.abs x <? 10 then "0"%char :: a else a).

(** C's [%g] layout for precision 12, trailing zeros removed: scientific
    notation when the exponent is below -4 or at least 12. *)
Definition layout_g12 (d : list ascii) (x : Z) : list ascii :=
  if (x <? -4) || (12 <=? x) then
    match d with
    | [] => []
    | c :: [] => c :: "e"%char :: exponent_text x
    | c :: rest => c :: "."%char :: rest ++ "e"%char :: exponent_text x
    end
  else if 0 <=? x then
    let k := Z.to_nat (x + 1) in
    let ip := (take k d ++ zeros (k - length d))%list in
    match drop k d with
    | [] => ip
    | fp => ip ++ "."%char :: fp
    end
  else "0"%char :: "."%char :: zeros (Z.to_nat (- x - 1)) ++ d.

(** [format(f, ".12g")]. *)
Definition format_12g (f : float) : string :=
  match Prim2SF f with
  | S754_nan => "nan"
  | S754_infinity s => if s then "-inf" else "inf"
  | S754_zero s => if s then "-0" else "0"
  | S754_finite s m e =>
      let '(num, den) :=
        if 0 <=? e then (Z.pos m * 2 ^ e, 1) else (Z.pos m, 2 ^ (- e)) in
      let '(d, x) := round_sig12 num den in
      let body := layout_g12 (strip_zeros d) x in
      string_of_list_ascii (if s then "-"%char :: body else body)
  end.

End Py.

(** ** Syntax trees ([ast]) *)

Module Ast.
Import Py.

(** The value of an [ast.Constant]. *)
Inductive constant :=
| CInt (z : Z)
| CFloat (f : float)
| CBool (b : bool)
| CNone
| CStr (s : string)
| CImag (f : float)
| CEllipsis.

(** The node classes the evaluator has no [visit_] method for. *)
Inductive kind :=
| ast_Assign | ast_Attribute | ast_Subscript | ast_List | ast_Dict | ast_Tuple
| ast_Lambda | ast_IfExp | ast_Compare | ast_BoolOp | ast_And | ast_Or
| ast_While | ast_For | ast_If | ast_With | ast_Import | ast_ImportFrom
| ast_FunctionDef | ast_ClassDef | ast_Module | ast_Expr
| ast_Set | ast_Starred | ast_NamedExpr | ast_JoinedStr | ast_FormattedValue
| ast_ListComp | ast_SetComp | ast_DictComp | ast_GeneratorExp
| ast_Await | ast_Yield | ast_YieldFrom | ast_Slice | ast_comprehension
| ast_Load | ast_Store.

#[export] Instance kind_eq_dec : EqDecision kind.
Proof. solve_decision. Defined.

(** A node.  The classes with a [visit_] method keep their fields; any other
    node is its class and its child nodes in field order, which is all
    [NodeVisitor.generic_visit] looks at. *)
#[warnings="-register-all"]
Inductive node :=
| Expression (body : node)
| Constant (value : constant)
| Name (id : string)
| UnaryOp (op : unaryop) (operand : node)
| BinOp (left : node) (op : operator) (right : node)
| Call (func : node) (args : list node) (keywords : list (string * node))
| Other (k : kind) (children : list node).

(** *** [ast.parse(expr, mode="eval")]

    A parser for the part of Python's expression grammar the calculator
    is used with: numbers, names, [True], [False], [None], parentheses,
    the unary and binary arithmetic and bitwise operators, calls with
    positional and keyword arguments, and tuple, list and set displays.
    A text is [Parsed], or [Invalid] (Python raises [SyntaxError]), or
    [Unsupported] when it uses syntax not covered here, in which case
    nothing is said about it. *)
Inductive parsed (A : Type) :=
| Parsed (a : A)
| Invalid
| Unsupported.
Arguments Parsed {A} a.
Arguments Invalid {A}.
Arguments Unsupported {A}.

#[export] Instance parsed_bind : MBind parsed := fun _ _ f r =>
  match r with
  | Parsed a => f a
  | Invalid => Invalid
  | Unsupported => Unsupported
  end.

Inductive token :=
| TConst (c : constant)
| TName (s : string)
| TOp (s : string).

Definition is_digit (c : ascii) : bool :=
  let n := nat_of_ascii c in (48 <=? n)%nat && (n <=? 57)%nat.

Definition is_alpha (c : ascii) : bool :=
  let n := nat_of_ascii c in
  ((65 <=? n) && (n <=? 90) || (97 <=? n) && (n <=? 122) || (n =? 95))%nat.

Definition is_space (c : ascii) : bool :=
  let n := nat_of_ascii c in ((n =? 32) || (n =? 9))%nat.

Fixpoint span (p : ascii → bool) (l : list ascii) : list ascii * list ascii :=
  match l with
  | c :: l' =>
      if p c then let '(a, b) := span p l' in (c :: a, b) else ([], l)
  | [] => ([], [])
  end.

Definition digits_value (ds : list ascii) : Z :=
  fold_left (fun acc c => acc * 10 + Z.of_nat (nat_of_ascii c - 48)) ds 0.

Definition starts_alpha (l : list ascii) : bool :=
  match l with
  | c :: _ => is_alpha c
  | [] => false
  end.

(** A number literal: decimal digits with an optional fraction.  An int
    with a leading zero is invalid unless it is zero; a literal followed by
    a letter (exponents, [j], [0x], [_]) is not covered. *)
Definition lex_number (cs : list ascii) : parsed (constant * list ascii) :=
  let '(ip, r1) := span is_digit cs in
  match r1 with
  | "."%char :: r2 =>
      let '(fp, r3) := span is_digit r2 in
      if starts_alpha r3 then Unsupported
      else
        let n := digits_value (ip ++ fp) in
        let f := if n =? 0 then 0%float
                 else int_quotient n (10 ^ Z.of_nat (length fp)) in
        Parsed (CFloat f, r3)
  | _ =>
      if starts_alpha r1 then Unsupported
      else
        let n := digits_value ip in
        match ip with
        | "0"%char :: _ :: _ => if n =? 0 then Parsed (CInt 0, r1) else Invalid
        | _ => Parsed (CInt n, r1)
        end
  end.

Definition keywords : list string :=
  ["and"; "as"; "assert"; "async"; "await"; "break"; "class"; "continue";
   "def"; "del"; "elif"; "else"; "except"; "finally"; "for"; "from";
   "global"; "if"; "import"; "in"; "is"; "lambda"; "nonlocal"; "not"; "or";
   "pass"; "raise"; "return"; "try"; "while"; "with"; "yield"].

Definition lex_name (w : string) : parsed token :=
  if String.eqb w "True" then Parsed (TConst (CBool true))
  else if String.eqb w "False" then Parsed (TConst (CBool false))
  else if String.eqb w "None" then Parsed (TConst CNone)
  else if existsb (String.eqb w) keywords then Unsupported
  else Parsed (TName w).

Definition op_chars : list ascii :=
  ["+"; "-"; "*"; "/"; "%"; "@"; "&"; "|"; "^"]%char.

Definition punct_chars : list ascii :=
  ["("; ")"; ","; "{"; "}"; "["; "]"; "~"; "="]%char.

Definition mem (c : ascii) (l : list ascii) : bool := existsb (Ascii.eqb c) l.

Definition starts_eq (l : list ascii) : bool :=
  match l with
  | "="%char :: _ => true
  | _ => false
  end.

(** The token sequence.  Blanks separate tokens; an operator glued to [=]
    (augmented assignment, comparison) and every other character are not
    covered. *)
Fixpoint tokens (fuel : nat) (cs : list ascii) : parsed (list token) :=
  match fuel with
  | O => Unsupported
  | S fuel' =>
      match cs with
      | [] => Parsed []
      | c :: cs' =>
          if is_space c then tokens fuel' cs'
          else if is_digit c
                  || (Ascii.eqb c "." && match cs' with d :: _ => is_digit d | [] => false end)
          then '(k, rest) ← lex_number cs;
               ts ← tokens fuel' rest; Parsed (TConst k :: ts)
          else if is_alpha c then
            let '(w, rest) := span (fun c => is_alpha c || is_digit c) cs in
            t ← lex_name (string_of_list_ascii w);
            ts ← tokens fuel' rest; Parsed (t :: ts)
          else if mem c op_chars then
            let '(o, rest) :=
              match cs' with
              | c' :: rest' =>
                  if Ascii.eqb c c' && mem c ["*"; "/"]%char
                  then (String c (String c' ""), rest')
                  else (String c "", cs')
              | [] => (String c "", cs')
              end in
            if starts_eq rest then Unsupported
            else ts ← tokens fuel' rest; Parsed (TOp o :: ts)
          else if mem c punct_chars then
            if Ascii.eqb c "=" && starts_eq cs' then Unsupported
            else ts ← tokens fuel' cs'; Parsed (TOp (String c "") :: ts)
          else Unsupported
      end
  end.

(** Leading blanks are an [IndentationError]. *)
Definition tokenize (expr : string) : parsed (list token) :=
  let cs := list_ascii_of_string expr in
  match cs with
  | c :: _ => if is_space c then Invalid else tokens (S (length cs)) cs
  | [] => Parsed []
  end.

(** The binary operators by level, loosest first; on a level they
    associate to the left. *)
Definition op_at (lvl : nat) (o : string) : option operator :=
  match lvl with
  | 0%nat => if String.eqb o "|" then Some BitOr else None
  | 1%nat => if String.eqb o "^" then Some BitXor else None
  | 2%nat => if String.eqb o "&" then Some BitAnd else None
  | 3%nat =>
      if String.eqb o "+" then Some Add
      else if String.eqb o "-" then Some Sub else None
  | 4%nat =>
      if String.eqb o "*" then Some Mult
      else if String.eqb o "/" then Some Div
      else if String.eqb o "//" then Some FloorDiv
      else if String.eqb o "%" then Some Mod
      else if String.eqb o "@" then Some MatMult else None
  | _ => None
  end.

Definition unary_of (o : string) : option unaryop :=
  if String.eqb o "+" then Some UAdd
  else if String.eqb o "-" then Some USub
  else if String.eqb o "~" then Some Invert else None.

Definition is_op (o : string) (t : token) : bool :=
  match t with
  | TOp o' => String.eqb o o'
  | _ => false
  end.

Definition load : node := Other ast_Load [].

(** Recursive descent, by levels: 0 to 4 the binary operators, 5 the unary
    ones, 6 the power operator (whose exponent is again of level 5), 7 and
    above an atom with its calls.  [parse_items] reads expressions
    separated by commas up to the closing token; [parse_args] reads the
    arguments of a call. *)
Fixpoint parse_expr (fuel lvl : nat) (ts : list token) {struct fuel}
  : parsed (node * list token) :=
  match fuel with
  | O => Unsupported
  | S fuel' =>
      if (lvl <=? 4)%nat then
        '(lhs, ts1) ← parse_expr fuel' (S lvl) ts;
        parse_binary fuel' lvl lhs ts1
      else if (lvl =? 5)%nat then
        match ts with
        | TOp o :: ts' =>
            match unary_of o with
            | Some u =>
                '(e, r) ← parse_expr fuel' 5%nat ts'; Parsed (UnaryOp u e, r)
            | None => parse_expr fuel' 6%nat ts
            end
        | _ => parse_expr fuel' 6%nat ts
        end
      else if (lvl =? 6)%nat then
        '(base, ts1) ← parse_expr fuel' 7%nat ts;
        match ts1 with
        | TOp "**" :: ts2 =>
            '(e, r) ← parse_expr fuel' 5%nat ts2; Parsed (BinOp base Pow e, r)
        | _ => Parsed (base, ts1)
        end
      else
        match ts with
        | TConst c :: ts' => parse_trailers fuel' (Constant c) ts'
        | TName x :: ts' => parse_trailers fuel' (Name x) ts'
        | TOp "(" :: TOp ")" :: ts' =>
            parse_trailers fuel' (Other ast_Tuple [load]) ts'
        | TOp "(" :: ts' =>
            '(e, ts1) ← parse_expr fuel' 0%nat ts';
            match ts1 with
            | TOp ")" :: ts2 => parse_trailers fuel' e ts2
            | TOp "," :: ts2 =>
                '(es, ts3) ← parse_items fuel' ")" ts2;
                parse_trailers fuel' (Other ast_Tuple (e :: es ++ [load])) ts3
            | _ => Invalid
            end
        | TOp "[" :: ts' =>
            '(es, ts1) ← parse_items fuel' "]" ts';
            parse_trailers fuel' (Other ast_List (es ++ [load])) ts1
        | TOp "{" :: TOp "}" :: ts' => parse_trailers fuel' (Other ast_Dict []) ts'
        | TOp "{" :: ts' =>
            '(es, ts1) ← parse_items fuel' "}" ts';
            match es with
            | [] => Invalid
            | _ => parse_trailers fuel' (Other ast_Set es) ts1
            end
        | TOp "*" :: _ | TOp "**" :: _ => Unsupported
        | _ => Invalid
        end
  end
with parse_binary (fuel lvl : nat) (lhs : node) (ts : list token) {struct fuel}
  : parsed (node * list token) :=
  match fuel with
  | O => Unsupported
  | S fuel' =>
      match ts with
      | TOp o :: ts' =>
          match op_at lvl o with
          | Some op =>
              '(rhs, ts1) ← parse_expr fuel' (S lvl) ts';
              parse_binary fuel' lvl (BinOp lhs op rhs) ts1
          | None => Parsed (lhs, ts)
          end
      | _ => Parsed (lhs, ts)
      end
  end
with parse_trailers (fuel : nat) (e : node) (ts : list token) {struct fuel}
  : parsed (node * list token) :=
  match fuel with
  | O => Unsupported
  | S fuel' =>
      match ts with
      | TOp "(" :: ts' =>
          '(args, kws, ts1) ← parse_args fuel' [] [] ts';
          parse_trailers fuel' (Call e args kws) ts1
      | TOp "[" :: _ => Unsupported
      | _ => Parsed (e, ts)
      end
  end
with parse_items (fuel : nat) (close : string) (ts : list token) {struct fuel}
  : parsed (list node * list token) :=
  match fuel with
  | O => Unsupported
  | S fuel' =>
      match ts with
      | TOp o :: ts' =>
          if String.eqb o close then Parsed ([], ts')
          else
            '(e, ts1) ← parse_expr fuel' 0%nat ts;
            match ts1 with
            | TOp o1 :: ts2 =>
                if String.eqb o1 close then Parsed ([e], ts2)
                else if String.eqb o1 "," then
                  '(es, ts3) ← parse_items fuel' close ts2; Parsed (e :: es, ts3)
                else Invalid
            | _ => Invalid
            end
      | _ =>
          '(e, ts1) ← parse_expr fuel' 0%nat ts;
          match ts1 with
          | TOp o1 :: ts2 =>
              if String.eqb o1 close then Parsed ([e], ts2)
              else if String.eqb o1 "," then
                '(es, ts3) ← parse_items fuel' close ts2; Parsed (e :: es, ts3)
              else Invalid
          | _ => Invalid
          end
      end
  end
with parse_args (fuel : nat) (args : list node) (kws : list (string * node))
  (ts : list token) {struct fuel}
  : parsed (list node * list (string * node) * list token) :=
  match fuel with
  | O => Unsupported
  | S fuel' =>
      match ts with
      | TOp ")" :: ts' => Parsed (args, kws, ts')
      | TOp "*" :: _ | TOp "**" :: _ => Unsupported
      | TName k :: TOp "=" :: ts' =>
          '(e, ts1) ← parse_expr fuel' 0%nat ts';
          match ts1 with
          | TOp ")" :: ts2 => Parsed (args, (kws ++ [(k, e)])%list, ts2)
          | TOp "," :: ts2 => parse_args fuel' args (kws ++ [(k, e)])%list ts2
          | _ => Invalid
          end
      | _ =>
          '(e, ts1) ← parse_expr fuel' 0%nat ts;
          match kws, ts1 with
          | _ :: _, _ => Invalid
          | [], TOp ")" :: ts2 => Parsed ((args ++ [e])%list, kws, ts2)
          | [], TOp "," :: ts2 => parse_args fuel' (args ++ [e])%list kws ts2
          | [], _ => Invalid
          end
      end
  end.

(** [ast.parse(expr, mode="eval")]: one expression, nothing after it. *)
Definition parse (expr : string) : parsed node :=
  ts ← tokenize expr;
  '(e, rest) ← parse_expr (16 * S (length ts)) 0%nat ts;
  match rest with
  | [] => Parsed (Expression e)
  | TOp "," :: _ => Unsupported
  | _ => Invalid
  end.

End Ast.

(** ** calc.py: the line interface *)

Module Calc.
Import Py Ast.

Definition ALLOWED_FUNCS : gmap string mathfn :=
  list_to_map [("sqrt", math_sqrt); ("sin", math_sin); ("cos", math_cos);
               ("tan", math_tan); ("log", math_log10); ("ln", math_log)].

(** [math.pi] and [math.e]. *)
Definition ALLOWED_NAMES : gmap string value :=
  list_to_map [("pi", VFloat 0x1.921fb54442d18p+1);
               ("e", VFloat 0x1.5bf0a8b145769p+1)].

(** [SafeEval(names)]: the object's only field, [self.names], is
    [{**ALLOWED_NAMES, **names}]; the right operand wins on a common key. *)
Definition SafeEval (names : gmap string value) : gmap string value :=
  names ∪ ALLOWED_NAMES.

(** The node classes [generic_visit] names. *)
Definition forbidden : list kind :=
  [ast_Assign; ast_Attribute; ast_Subscript; ast_List; ast_Dict; ast_Tuple;
   ast_Lambda; ast_IfExp; ast_Compare; ast_BoolOp; ast_And; ast_Or;
   ast_While; ast_For; ast_If; ast_With; ast_Import; ast_ImportFrom;
   ast_FunctionDef; ast_ClassDef; ast_Module; ast_Expr].

Section SafeEval.
Context (M : platform) (self_names : gmap string value).

Definition visit_Constant (c : constant) : result value :=
  match c with
  | CInt z => Ok (VInt z)
  | CBool b => Ok (VBool b)      (* bool is a subclass of int *)
  | CFloat f => Ok (VFloat f)
  | _ => Raise (ValueError "only numbers allowed")
  end.

Definition visit_BinOp (visit : node → result value)
  (left : node) (op : operator) (right : node) : result value :=
  l ← visit left;
  r ← visit right;
  match op with
  | Add | Sub | Mult | Div | FloorDiv | Mod | Pow => binop M op l r
  | _ => Raise (ValueError "operator not allowed")
  end.

Definition visit_UnaryOp (visit : node → result value)
  (op : unaryop) (operand : node) : result value :=
  val ← visit operand;
  match op with
  | UAdd => pos val
  | USub => neg val
  | _ => Raise (ValueError "unary operator not allowed")
  end.

Definition visit_Name (id : string) : result value :=
  match self_names !! id with
  | Some v => Ok v
  | None => Raise (ValueError ("name '" +:+ id +:+ "' not allowed"))
  end.

Definition visit_Call (visit : node → result value)
  (func : node) (args : list node) (keywords : list (string * node))
  : result value :=
  match func with
  | Name fname =>
      match ALLOWED_FUNCS !! fname with
      | None => Raise (ValueError ("function '" +:+ fname +:+ "' not allowed"))
      | Some f =>
          if negb ((0 <? length args)%nat && (length args <=? 2)%nat)
             || negb (bool_decide (keywords = []))
          then Raise (ValueError "bad function arity")
          else args' ← mapM visit args; call M f args'
      end
  | _ => Raise (ValueError "function not allowed")
  end.

(** Block anything else: the listed classes are rejected; for any other
    class [NodeVisitor.generic_visit] visits the children and returns
    [None]. *)
Definition generic_visit (visit : node → result value)
  (k : kind) (children : list node) : result value :=
  if bool_decide (k ∈ forbidden) then Raise (ValueError "syntax not allowed")
  else _ ← mapM visit children; Ok VNone.

(** [NodeVisitor.visit]: dispatch on the class of the node. *)
Fixpoint visit (n : node) : result value :=
  match n with
  | Expression body => visit body
  | Constant c => visit_Constant c
  | Name id => visit_Name id
  | UnaryOp op operand => visit_UnaryOp visit op operand
  | BinOp lhs op rhs => visit_BinOp visit lhs op rhs
  | Call func args keywords => visit_Call visit func args keywords
  | Other k children => generic_visit visit k children
  end.
End SafeEval.

(** [safe_eval(expr, names)].  [None] when the text is outside the syntax
    covered by [Ast.parse]. *)
Definition safe_eval (M : platform) (expr : string) (names : gmap string value)
  : option (result value) :=
  match parse expr with
  | Parsed tree => Some (visit M (SafeEval names) tree)
  | Invalid => Some (Raise SyntaxError)
  | Unsupported => None
  end.

(** [format_num(x)]. *)
Definition format_num (M : platform) (x : value) : result string :=
  try_pass
    (i ← int x;
     if eq_int x i then s ← str_int M i; Ok (Some s) else Ok None)
    (f ← as_double x; Ok (format_12g f)).

(** [run_oneshot(expr)]: what is printed, or the exception reported. *)
Definition run_oneshot (M : platform) (expr : string) : option (result string) :=
  r ← safe_eval M expr ∅;
  Some (val ← r; format_num M val).

(** One turn of [run_repl] on a non-empty line: the new [ans] and what is
    printed, or the exception reported ([ans] is then unchanged). *)
Definition repl_step (M : platform) (ans : float) (line : string)
  : option (result (float * string)) :=
  r ← safe_eval M line {["ans" := VFloat ans]};
  Some (val ← r; ans' ← as_double val; s ← format_num M (VFloat ans'); Ok (ans', s)).

End Calc.

(** ** calc_gui.py: the graphical interface *)

Module CalcGui.
Import Py Ast.

Definition ALLOWED_FUNCS : gmap string mathfn :=
  list_to_map [("sqrt", math_sqrt); ("sin", math_sin); ("cos", math_cos);
               ("tan", math_tan); ("log", math_log10); ("ln", math_log)].

Definition ALLOWED_NAMES : gmap string value :=
  list_to_map [("pi", VFloat 0x1.921fb54442d18p+1);
               ("e", VFloat 0x1.5bf0a8b145769p+1)].

Definition SafeEval (names : gmap string value) : gmap string value :=
  names ∪ ALLOWED_NAMES.

Definition forbidden : list kind :=
  [ast_Assign; ast_Attribute; ast_Subscript; ast_List; ast_Dict; ast_Tuple;
   ast_Lambda; ast_IfExp; ast_Compare; ast_BoolOp; ast_And; ast_Or;
   ast_While; ast_For; ast_If; ast_With; ast_Import; ast_ImportFrom;
   ast_FunctionDef; ast_ClassDef; ast_Module; ast_Expr].

Section SafeEval.
Context (M : platform) (self_names : gmap string value).

Definition visit_Constant (c : constant) : result value :=
  match c with
  | CInt z => Ok (VInt z)
  | CBool b => Ok (VBool b)
  | CFloat f => Ok (VFloat f)
  | _ => Raise (ValueError "only numbers allowed")
  end.

Definition visit_BinOp (visit : node → result value)
  (left : node) (op : operator) (right : node) : result value :=
  a ← visit left;
  b ← visit right;
  match op with
  | Add | Sub | Mult | Div | FloorDiv | Mod | Pow => binop M op a b
  | _ => Raise (ValueError "operator not allowed")
  end.

Definition visit_UnaryOp (visit : node → result value)
  (op : unaryop) (operand : node) : result value :=
  v ← visit operand;
  match op with
  | UAdd => pos v
  | USub => neg v
  | _ => Raise (ValueError "unary operator not allowed")
  end.

Definition visit_Name (id : string) : result value :=
  match self_names !! id with
  | Some v => Ok v
  | None => Raise (ValueError ("name '" +:+ id +:+ "' not allowed"))
  end.

(** No check of the number of arguments here. *)
Definition visit_Call (visit : node → result value)
  (func : node) (args : list node) (keywords : list (string * node))
  : result value :=
  match func with
  | Name f =>
      match ALLOWED_FUNCS !! f with
      | None => Raise (ValueError ("function '" +:+ f +:+ "' not allowed"))
      | Some fn =>
          if negb (bool_decide (keywords = []))
          then Raise (ValueError "no keyword args")
          else args' ← mapM visit args; call M fn args'
      end
  | _ => Raise (ValueError "function not allowed")
  end.

Definition generic_visit (visit : node → result value)
  (k : kind) (children : list node) : result value :=
  if bool_decide (k ∈ forbidden) then Raise (ValueError "syntax not allowed")
  else _ ← mapM visit children; Ok VNone.

Fixpoint visit (n : node) : result value :=
  match n with
  | Expression body => visit body
  | Constant c => visit_Constant c
  | Name id => visit_Name id
  | UnaryOp op operand => visit_UnaryOp visit op operand
  | BinOp lhs op rhs => visit_BinOp visit lhs op rhs
  | Call func args keywords => visit_Call visit func args keywords
  | Other k children => generic_visit visit k children
  end.
End SafeEval.

(** A match of [(\d+(?:\.\d+)?)%] at the head of the text: group 1 and what
    follows the match.  The digits are taken greedily; giving some back
    never helps, since the character after them would be a digit. *)
Definition match_percent (cs : list ascii) : option (list ascii * list ascii) :=
  let '(ip, r1) := span is_digit cs in
  match ip, r1 with
  | [], _ => None
  | _, "%"%char :: r => Some (ip, r)
  | _, "."%char :: r2 =>
      let '(fp, r3) := span is_digit r2 in
      match fp, r3 with
      | _ :: _, "%"%char :: r => Some ((ip ++ "."%char :: fp)%list, r)
      | _, _ => None
      end
  | _, _ => None
  end.

(** [re.sub]: leftmost matches, one after the other. *)
Fixpoint sub_percent (fuel : nat) (cs : list ascii) : list ascii :=
  match fuel with
  | O => cs
  | S fuel' =>
      match cs with
      | [] => []
      | c :: cs' =>
          match match_percent cs with
          | Some (g, rest) =>
              ("("%char :: g ++ list_ascii_of_string "*0.01)"
                 ++ sub_percent fuel' rest)%list
          | None => c :: sub_percent fuel' cs'
          end
      end
  end.

(** [percent_to_mul(s)], on ASCII text. *)
Definition percent_to_mul (s : string) : string :=
  string_of_list_ascii (sub_percent (String.length s) (list_ascii_of_string s)).

(** [safe_eval(expr, names)]. *)
Definition safe_eval (M : platform) (expr : string) (names : gmap string value)
  : option (result value) :=
  let expr := percent_to_mul expr in
  match parse expr with
  | Parsed tree => Some (visit M (SafeEval names) tree)
  | Invalid => Some (Raise SyntaxError)
  | Unsupported => None
  end.

(** [fmt_num(x)]. *)
Definition fmt_num (M : platform) (x : value) : result string :=
  try_pass
    (f ← as_double x;
     if is_integer f then i ← int x; s ← str_int M i; Ok (Some s)
     else Ok None)
    (f ← as_double x; Ok (format_12g f)).

(** [CalcApp.equals] on a non-empty text: the new [last_result] and the text
    put on the screen, or the exception shown in the error box. *)
Definition equals (M : platform) (last_result : float) (s : string)
  : option (result (float * string)) :=
  r ← safe_eval M s {["ans" := VFloat last_result]};
  Some (val ← r; f ← as_double val; res ← fmt_num M (VFloat f); Ok (f, res)).

End CalcGui.

(** ** Text operations of the callers *)

Module Text.

(** The ASCII characters [str.strip] removes: tab to carriage return, the
    four separators 28 to 31, and the space. *)
Definition is_blank (c : ascii) : bool :=
  let n := nat_of_ascii c in
  ((9 <=? n) && (n <=? 13) || (28 <=? n) && (n <=? 31) || (n =? 32))%nat.

Fixpoint lstrip (l : list ascii) : list ascii :=
  match l with
  | c :: l' => if is_blank c then lstrip l' else l
  | [] => []
  end.

(** [s.strip()], on ASCII text. *)
Definition strip (s : string) : string :=
  string_of_list_ascii (rev (lstrip (rev (lstrip (list_ascii_of_string s))))).

(** [s[:-1]]: the text without its last character. *)
Definition drop_last (s : string) : string :=
  string_of_list_ascii (removelast (list_ascii_of_string s)).

(** [s.split("=", 1)[1]]: what follows the first [=]; [None] when there is
    no [=], where Python raises [IndexError]. *)
Fixpoint after_eq (l : list ascii) : option (list ascii) :=
  match l with
  | [] => None
  | c :: l' => if Ascii.eqb c "=" then Some l' else after_eq l'
  end.

End Text.

(** ** calc.py: the prompt loop *)

Module Repl.
Import Py Ast Text.

(** What a turn of the loop writes. *)
Inductive output :=
| Printed (s : string)
| Error (e : exn).

(** One turn of the loop of [run_repl] on the line read: the value of [ans]
    after it and what is written (nothing for a blank line).  [ans] is
    assigned before the result is formatted. *)
Definition turn (M : platform) (ans : float) (raw : string)
  : option (float * option output) :=
  let line := strip raw in
  if String.eqb line "" then Some (ans, None)
  else
    match Calc.safe_eval M line {["ans" := VFloat ans]} with
    | None => None
    | Some (Raise e) => Some (ans, Some (Error e))
    | Some (Ok val) =>
        match as_double val with
        | Raise e => Some (ans, Some (Error e))
        | Ok ans' =>
            match Calc.format_num M (VFloat ans') with
            | Raise e => Some (ans', Some (Error e))
            | Ok s => Some (ans', Some (Printed s))
            end
        end
    end.

(** [run_repl] on the lines read before the end of the input: [ans] starts
    at 0.0; the outputs, in order, and the last [ans]. *)
Fixpoint run (M : platform) (ans : float) (lines : list string)
  : option (float * list output) :=
  match lines with
  | [] => Some (ans, [])
  | raw :: lines' =>
      '(ans', out) ← turn M ans raw;
      '(ans'', outs) ← run M ans' lines';
      Some (ans'', match out with Some o => o :: outs | None => outs end)
  end.

Definition run_repl (M : platform) (lines : list string)
  : option (float * list output) :=
  run M 0%float lines.

End Repl.

(** ** calc_gui.py: the application *)

Module CalcApp.
Import Py Ast Text.

(** The state of [CalcApp] the actions read and write: the text of the
    entry, the label above it, the last result, the history list and the
    list box (top item first).  Theme and layout are left out. *)
Record app := {
  expr : string;
  history_line : string;
  last_result : float;
  history : list (string * string);
  hlist : list string
}.

(** [CalcApp.__init__]. *)
Definition init : app := {|
  expr := "";
  history_line := "";
  last_result := 0%float;
  history := [];
  hlist := []
|}.

Definition set_expr (st : app) (s : string) : app :=
  {| expr := s; history_line := history_line st;
     last_result := last_result st; history := history st;
     hlist := hlist st |}.

(** The text of a list box item. *)
Definition item (entry : string * string) : string :=
  entry.1 +:+ " = " +:+ entry.2.

(** [push_history(s, res)]: appended to the history, put on top of the list
    box. *)
Definition push_history (st : app) (s res : string) : app :=
  {| expr := expr st; history_line := history_line st;
     last_result := last_result st;
     history := (history st ++ [(s, res)])%list;
     hlist := item (s, res) :: hlist st |}.

(** [equals()]: the state after it and the exception shown by
    [flash_error], if any.  [None] when the text is outside the syntax
    covered by [Ast.parse]. *)
Definition equals (M : platform) (st : app) : option (app * option exn) :=
  let s := strip (expr st) in
  if String.eqb s "" then Some (st, None)
  else
    match CalcGui.safe_eval M s {["ans" := VFloat (last_result st)]} with
    | None => None
    | Some (Raise e) => Some (st, Some e)
    | Some (Ok val) =>
        match as_double val with
        | Raise e => Some (st, Some e)
        | Ok f =>
            let st1 :=
              {| expr := expr st; history_line := history_line st;
                 last_result := f; history := history st;
                 hlist := hlist st |} in
            match CalcGui.fmt_num M (VFloat f) with
            | Raise e => Some (st1, Some e)
            | Ok res =>
                let st2 :=
                  {| expr := res; history_line := s +:+ " =";
                     last_result := f; history := history st;
                     hlist := hlist st |} in
                Some (push_history st2 s res, None)
            end
        end
    end.

(** [on_key(token)]. *)
Definition on_key (M : platform) (token : string) (st : app)
  : option (app * option exn) :=
  if String.eqb token "ac" then
    Some ({| expr := ""; history_line := "";
             last_result := last_result st; history := history st;
             hlist := hlist st |}, None)
  else if String.eqb token "del" then Some (set_expr st (drop_last (expr st)), None)
  else if String.eqb token "=" then equals M st
  else Some (set_expr st (expr st +:+ token), None).

Definition keypad : list (string * string) :=
  [("KP_Add", "+"); ("KP_Subtract", "-"); ("KP_Multiply", "*");
   ("KP_Divide", "/")].

(** [on_keypress(e)], for the key symbol and the character of the event. *)
Definition on_keypress (M : platform) (keysym char : string) (st : app)
  : option (app * option exn) :=
  if negb (String.eqb char "")
     && bool_decide (is_Some (String.index 0 char "0123456789.+-*/()%()"))
  then on_key M char st
  else match list_find (λ p, p.1 = keysym) keypad with
       | Some (_, (_, token)) => on_key M token st
       | None => Some (st, None)
       end.

(** [use_selected()], for the selection of the list box: the entry gets
    what follows the first [=] of the first selected item, stripped. *)
Definition use_selected (sel : list nat) (st : app) : app :=
  match sel with
  | [] => st
  | i :: _ =>
      match hlist st !! i with
      | None => st
      | Some it =>
          match after_eq (list_ascii_of_string it) with
          | None => st
          | Some r => set_expr st (strip (string_of_list_ascii r))
          end
      end
  end.

(** [clear_history()]. *)
Definition clear_history (st : app) : app :=
  {| expr := expr st; history_line := history_line st;
     last_result := last_result st; history := []; hlist := [] |}.

(** The calls the window makes on its methods (buttons and key bindings),
    and a run of them from a state. *)
Inductive action :=
| Key (token : string)
| Keypress (keysym char : string)
| UseSelected (sel : list nat)
| ClearHistory.

Definition step (M : platform) (a : action) (st : app)
  : option (app * option exn) :=
  match a with
  | Key token => on_key M token st
  | Keypress keysym char => on_keypress M keysym char st
  | UseSelected sel => Some (use_selected sel st, None)
  | ClearHistory => Some (clear_history st, None)
  end.

Fixpoint run (M : platform) (actions : list action) (st : app) : option app :=
  match actions with
  | [] => Some st
  | a :: actions' => '(st', _) ← step M a st; run M actions' st'
  end.

(** The list box shows the history, newest first. *)
Definition mirrors (st : app) : Prop :=
  hlist st = rev (map item (history st)).

End CalcApp.

(** ** A platform for the examples

    The doubles glibc 2.36 (x86-64) returns at the arguments the examples
    below reach; the other arguments are not used. *)

Module Sample.
Import Py.
#[local] Open Scope float_scope.

Definition log (x : float) : float :=
  if x =? 8 then 0x1.0a2b23f3bab73p+1        (* log(8.0) *)
  else if x =? 2 then 0x1.62e42fefa39efp-1   (* log(2.0) *)
  else nan.

Definition pow (x y : float) : float * errno :=
  if (x =? 2) && (y =? -2) then (0.25, ENone) else (nan, EDOM).

(** [(-8+0j) ** (0.5+0j)] is [1.7319121124709868e-16+2.8284271247461903j]. *)
Definition c_pow (a b : cplx) : cplx * errno :=
  if (a.1 =? -8) && (a.2 =? 0) && (b.1 =? 0.5) && (b.2 =? 0)
  then ((0x1.8f5a0be038ed7p-53, 0x1.6a09e667f3bcdp+1), ENone)
  else ((nan, nan), EDOM).

Definition glibc : platform := {|
  m_sin := fun _ => nan;
  m_cos := fun _ => nan;
  m_tan := fun _ => nan;
  m_log := log;
  m_log10 := fun _ => nan;
  m_pow := pow;
  m_c_pow := c_pow;
  int_max_str_digits := 4300
|}.

End Sample.

(** ** Vocabulary of the properties *)

Module Spec.
Import Py Ast.

(** What is left of a call once the checks of [visit_Call] are passed: the
    arguments are evaluated and given to the math function. *)
Definition forward (M : platform) (visit : node → result value)
  (fn : mathfn) (args : list node) : result value :=
  args' ← mapM visit args; call M fn args'.

(** The values the spec calls Integer and Real: ints (with the bools) and
    floats. *)
Definition is_real (v : value) : bool :=
  match v with
  | VBool _ | VInt _ | VFloat _ => true
  | VNone | VComplex _ _ => false
  end.







(** The int [z] is within the interpreter's limit on int to text
    conversions. *)
Definition within_limit (M : platform) (z : Z) : Prop :=
  int_max_str_digits M = 0%nat
  ∨ (String.length (decimal (Z.abs z)) <= int_max_str_digits M)%nat.

(** The limit is off or, as CPython requires of it, at least 640 digits. *)
Definition limit_allowed (M : platform) : Prop :=
  int_max_str_digits M = 0%nat ∨ (640 <= int_max_str_digits M)%nat.

End Spec.

(** ** Shapes of trees *)

Module Shape.
Import Py Ast.

Definition allowed_binop (op : operator) : bool :=
  match op with
  | Add | Sub | Mult | Div | FloorDiv | Mod | Pow => true
  | _ => false
  end.

Definition allowed_unary (op : unaryop) : bool :=
  match op with
  | UAdd | USub => true
  | _ => false
  end.

Definition numeric (c : constant) : bool :=
  match c with
  | CInt _ | CFloat _ | CBool _ => true
  | _ => false
  end.

(** The number of arguments a math function takes: one, or one or two for
    [math.log]. *)
Definition takes (fn : mathfn) (n : nat) : bool :=
  match fn with
  | math_log => ((n =? 1) || (n =? 2))%nat
  | _ => (n =? 1)%nat
  end.

(** A call of a registered function by its name, with a number of
    positional arguments the function takes and no keyword argument. *)
Definition registered_call (func : node) (args : list node)
  (keywords : list (string * node)) : bool :=
  match func, keywords with
  | Name f, [] =>
      match Calc.ALLOWED_FUNCS !! f with
      | Some fn => takes fn (length args)
      | None => false
      end
  | _, _ => false
  end.

(** A tree of the calculator's grammar: numbers, names, the two unary and
    seven binary operators, and calls of the registered functions. *)
Fixpoint strict (n : node) : bool :=
  match n with
  | Expression body => strict body
  | Constant c => numeric c
  | Name _ => true
  | UnaryOp op operand => allowed_unary op && strict operand
  | BinOp lhs op rhs => allowed_binop op && strict lhs && strict rhs
  | Call func args keywords =>
      registered_call func args keywords && forallb strict args
  | Other _ _ => false
  end.

(** The same, with the nodes [generic_visit] lets through: any class that
    is not in its list, over such trees. *)
Fixpoint admitted (n : node) : bool :=
  match n with
  | Expression body => admitted body
  | Constant c => numeric c
  | Name _ => true
  | UnaryOp op operand => allowed_unary op && admitted operand
  | BinOp lhs op rhs => allowed_binop op && admitted lhs && admitted rhs
  | Call func args keywords =>
      registered_call func args keywords && forallb admitted args
  | Other k children =>
      negb (bool_decide (k ∈ Calc.forbidden)) && forallb admitted children
  end.

(** A zero: the int 0, [False], or a float zero of either sign. *)
Definition is_zero_value (v : value) : bool :=
  match v with
  | VInt z => z =? 0
  | VBool b => negb b
  | VFloat f => PrimFloat.eqb f 0
  | VNone | VComplex _ _ => false
  end.

(** An int (or bool). *)
Definition is_int (v : value) : bool :=
  match v with
  | VInt _ | VBool _ => true
  | _ => false
  end.

(** A number that has no logarithm: an int that is not positive, or a
    float that is neither positive nor NaN. *)
Definition not_positive (v : value) : bool :=
  match v with
  | VInt z => z <=? 0
  | VBool b => negb b
  | VFloat f => negb (PrimFloat.ltb 0 f) && negb (is_nan f)
  | VNone | VComplex _ _ => false
  end.

(** A text without the character [%]. *)
Definition percent_free (cs : list ascii) : bool :=
  forallb (λ c, negb (Ascii.eqb c "%")) cs.

(** Two results agree up to the arity check: they are equal, or the first
    is calc.py's arity error and the second is an error too. *)
Definition agree {A} (r1 r2 : result A) : Prop :=
  r1 = r2 ∨ (r1 = Raise (ValueError "bad function arity") ∧ ∃ e, r2 = Raise e).

(** The int an int or bool is. *)
Definition int_of (v : value) : Z :=
  match v with
  | VInt z => z
  | VBool b => Z.b2z b
  | _ => 0
  end.

(** The names a visit looks up: those of the [Name] nodes, the callee of a
    call apart. *)
Fixpoint names_in (n : node) : list string :=
  match n with
  | Expression body => names_in body
  | Constant _ => []
  | Name id => [id]
  | UnaryOp _ operand => names_in operand
  | BinOp lhs _ rhs => (names_in lhs ++ names_in rhs)%list
  | Call _ args _ => flat_map names_in args
  | Other _ children => flat_map names_in children
  end.



(** Text without [=]. *)
Definition equals_free (cs : list ascii) : bool :=
  forallb (λ c, negb (Ascii.eqb c "=")) cs.

(** A history entry that is an evaluation: its text evaluated, with some
    last result, to a float shown as its result. *)
Definition recorded (M : platform) (entry : string * string) : Prop :=
  ∃ last f, CalcGui.equals M last entry.1 = Some (Ok (f, entry.2)).

(** The list box mirrors the history, and the history holds evaluations. *)
Definition consistent (M : platform) (st : CalcApp.app) : Prop :=
  CalcApp.mirrors st ∧ Forall (recorded M) (CalcApp.history st).

End Shape.

(** * Properties *)

Import Py Ast Spec.

(** ** Unrecognised nodes *)

(** A node of a class that [generic_visit] does not list is not rejected:
    its children are visited and the visit returns [None]. *)
Lemma generic_visit_unlisted (M : platform) (names : gmap string value)
  (k : kind) (children : list node) (vs : list value) :
  k ∉ Calc.forbidden →
  mapM (Calc.visit M names) children = Ok vs →
  Calc.visit M names (Other k children) = Ok VNone.
Proof.
  intros Hk Hch. simpl. unfold Calc.generic_visit.
  rewrite bool_decide_eq_false_2 by exact Hk.
  rewrite Hch. reflexivity.
Qed.

(** C1 (the code at the failing input): a set display is none of the
    recognised shapes, and both evaluators return [None] on [{1}] instead of
    raising an error.  (The callers then fail on the [None]: [format_num]
    and [float] raise [TypeError].) *)
Theorem set_display_evaluates_to_None (M : platform)
  (names : gmap string value) (last_result : float) :
  parse "{1}" = Parsed (Expression (Other ast_Set [Constant (CInt 1)]))
  ∧ (ast_Set ∉ Calc.forbidden)
  ∧ Calc.safe_eval M "{1}" names = Some (Ok VNone)
  ∧ CalcGui.safe_eval M "{1}" names = Some (Ok VNone)
  ∧ Calc.run_oneshot M "{1}" = Some (Raise TypeError)
  ∧ CalcGui.equals M last_result "{1}" = Some (Raise TypeError).
Proof.
  repeat split; try reflexivity.
  intros Hin. apply (bool_decide_eq_true_2 _) in Hin. discriminate Hin.
Qed.

(** ** Calls *)

Lemma mapM_length {A B} (f : A → result B) (l : list A) (bs : list B) :
  mapM f l = Ok bs → length bs = length l.
Proof.
  revert bs. induction l as [|a l IH]; intros bs; simpl.
  - intros [= <-]. reflexivity.
  - destruct (f a); [|discriminate].
    destruct (mapM f l) as [bs'|]; [|discriminate].
    intros [= <-]. simpl. f_equal. apply IH. reflexivity.
Qed.

(** Called with a number of arguments other than one, the five
    one-argument functions raise [TypeError]. *)
Lemma call_wrong_count (M : platform) (fn : mathfn) (vs : list value) :
  fn ≠ math_log → length vs ≠ 1%nat → call M fn vs = Raise TypeError.
Proof.
  intros Hfn Hlen.
  destruct fn; try congruence; destruct vs as [|v [|w vs]]; simpl in *;
    congruence.
Qed.

(** [math.log] takes one or two arguments. *)
Lemma call_log_wrong_count (M : platform) (vs : list value) :
  (length vs = 0 ∨ 2 < length vs)%nat → call M math_log vs = Raise TypeError.
Proof.
  destruct vs as [|v [|w [|u vs]]]; simpl; intros [H|H]; try reflexivity;
    try discriminate; lia.
Qed.

(** C2 (amended): the number of arguments of a call to a registered function.
    In calc.py no argument, more than two arguments or a keyword argument
    is the arity error, raised before any argument is evaluated; one or two
    arguments are evaluated and given to the math function.  In calc_gui.py
    a keyword argument is rejected, and any number of positional arguments
    is evaluated and given to the math function.  The math function itself
    raises [TypeError] on a wrong number of arguments, which is any number
    but one for [sqrt], [sin], [cos], [tan] and [log], and none or more than
    two for [ln]: [sqrt(1,2)] fails with [TypeError]. *)
Theorem call_argument_count (M : platform) (names : gmap string value)
  (fname : string) (fn : mathfn) (args : list node)
  (kws : list (string * node)) :
  Calc.ALLOWED_FUNCS !! fname = Some fn →
  let calc := Calc.visit M names (Call (Name fname) args kws) in
  let gui := CalcGui.visit M names (Call (Name fname) args kws) in
  ((length args = 0 ∨ 2 < length args)%nat ∨ kws ≠ [] →
     calc = Raise (ValueError "bad function arity"))
  ∧ ((length args = 1 ∨ length args = 2)%nat → kws = [] →
     calc = forward M (Calc.visit M names) fn args)
  ∧ (kws ≠ [] → gui = Raise (ValueError "no keyword args"))
  ∧ (kws = [] → gui = forward M (CalcGui.visit M names) fn args)
  ∧ (∀ visit vs, mapM visit args = Ok vs →
       (fn ≠ math_log ∧ length args ≠ 1%nat)
       ∨ (fn = math_log ∧ (length args = 0 ∨ 2 < length args)%nat) →
       forward M visit fn args = Raise TypeError)
  ∧ Calc.safe_eval M "sqrt(1,2)" names = Some (Raise TypeError)
  ∧ CalcGui.safe_eval M "sqrt(1,2)" names = Some (Raise TypeError).
Proof.
  intros Hfn calc gui.
  assert (Hgui : CalcGui.ALLOWED_FUNCS !! fname = Some fn) by exact Hfn.
  subst calc gui. simpl. unfold Calc.visit_Call, CalcGui.visit_Call.
  rewrite Hfn, Hgui.
  repeat split.
  - intros [Hlen | Hk].
    + destruct args as [|a [|b [|c args]]]; simpl in *;
        try reflexivity; destruct Hlen; try discriminate; lia.
    + rewrite (bool_decide_eq_false_2 _ Hk). simpl.
      rewrite orb_true_r. reflexivity.
  - intros Hlen ->.
    destruct args as [|a [|b [|c args]]]; simpl in *;
      try reflexivity; destruct Hlen; discriminate.
  - intros Hk. rewrite (bool_decide_eq_false_2 _ Hk). reflexivity.
  - intros ->. reflexivity.
  - intros visit vs Hvs Hcase. unfold forward. rewrite Hvs. simpl.
    pose proof (mapM_length _ _ _ Hvs) as Hlen.
    destruct Hcase as [[Hne Hl] | [-> Hl]].
    + apply call_wrong_count; congruence.
    + apply call_log_wrong_count. rewrite Hlen. exact Hl.
Qed.

(** C2 (counterexample): a call with two arguments that returns a value.
    [ln] is [math.log], whose second argument is the base. *)
Lemma ln_with_base_returns :
  Calc.safe_eval Sample.glibc "ln(8,2)" ∅ = Some (Ok (VFloat 3))
  ∧ CalcGui.safe_eval Sample.glibc "ln(8,2)" ∅ = Some (Ok (VFloat 3)).
Proof. split; vm_compute; reflexivity. Qed.

Lemma call_argument_count_witness :
  Calc.visit Sample.glibc ∅ (Call (Name "sqrt") [] [("x", Constant (CInt 1))])
  = Raise (ValueError "bad function arity").
Proof.
  refine (proj1 (call_argument_count Sample.glibc ∅ "sqrt" math_sqrt []
                   [("x", Constant (CInt 1))] _) _).
  - reflexivity.
  - right. discriminate.
Defined.

(** ** Power *)

Section FloatFacts.
#[local] Open Scope float_scope.

Lemma Prim2SF_zero : Prim2SF 0 = S754_zero false.
Proof. reflexivity. Qed.

Lemma SFeqb_zero_r (x : spec_float) :
  SFeqb x (S754_zero false) = true → ∃ s, x = S754_zero s.
Proof.
  destruct x as [s|[]| |[] m e]; try (intros; eexists; reflexivity);
    discriminate.
Qed.

(** A float below zero is neither zero nor NaN. *)
Lemma ltb_zero (x : float) :
  (x <? 0) = true → (x =? 0) = false ∧ is_nan x = false.
Proof.
  unfold is_nan. rewrite ltb_spec, !FloatAxioms.eqb_spec, Prim2SF_zero.
  destruct (Prim2SF x) as [[]|[]| |[] m e]; try discriminate;
    intros _; split; try reflexivity.
  unfold SFeqb, SFcompare. rewrite Z.compare_refl, Pos.compare_cont_refl.
  reflexivity.
Qed.

Lemma is_finite_inv (y : float) :
  is_finite y = true → is_nan y = false ∧ is_infinity y = false.
Proof.
  unfold is_finite. rewrite negb_true_iff, orb_false_iff. tauto.
Qed.

(** A float with a fractional part is not zero. *)
Lemma fractional_nonzero (y : float) :
  is_nan y = false → (y =? floor y) = false → (y =? 0) = false.
Proof.
  intros Hnan Hfl. destruct (y =? 0) eqn:Hz; [|reflexivity].
  rewrite FloatAxioms.eqb_spec, Prim2SF_zero in Hz.
  destruct (SFeqb_zero_r _ Hz) as [s Hs].
  unfold floor, is_integer in Hfl. rewrite Hs in Hfl.
  unfold is_nan in Hnan. rewrite negb_false_iff in Hnan. congruence.
Qed.
End FloatFacts.

(** C3 (amended): a negative base with a fractional exponent is not
    rejected.  Python's float power hands it to complex power, and the
    result is the complex number computed there; only the errors complex
    power reports (a range error, a zero division) can make it fail.  So
    [(-8)**0.5] evaluates to complex power's result for -8 and 0.5. *)
Theorem negative_base_fractional_exponent (M : platform) (a : value)
  (x y : float) :
  as_double a = Ok x →
  (x <? 0)%float = true → is_infinity x = false →
  is_finite y = true → (y =? floor y)%float = false →
  binop M Pow a (VFloat y) =
    (let '(p, err) := m_c_pow M (x, 0%float) (y, 0%float) in
     match adjust_erange2 p.1 p.2 err with
     | EDOM => Raise ZeroDivisionError
     | ERANGE => Raise OverflowError
     | ENone => Ok (VComplex p.1 p.2)
     end).
Proof.
  intros Ha Hneg Hinfx Hfin Hfrac.
  destruct (ltb_zero x Hneg) as [Hx0 Hnanx].
  destruct (is_finite_inv y Hfin) as [Hnany Hinfy].
  pose proof (fractional_nonzero y Hnany Hfrac) as Hy0.
  assert (Hpow : binop M Pow a (VFloat y) = float_pow M x y).
  { unfold as_double in Ha. unfold binop.
    destruct (as_num a) as [[z|f|c]|]; simpl in Ha; try discriminate.
    - change (mbind (λ x', mbind (λ y', float_binop M Pow x' y') (Ok y))
                (to_float z) = float_pow M x y).
      rewrite Ha. reflexivity.
    - injection Ha as ->. reflexivity. }
  rewrite Hpow. unfold float_pow.
  rewrite Hy0, Hnanx, Hnany, Hinfy, Hinfx, Hx0, Hneg, Hfrac. simpl.
  unfold complex_pow. simpl. rewrite Hfrac. simpl.
  unfold c_pow. simpl. rewrite Hy0, Hx0. simpl.
  reflexivity.
Qed.

Lemma negative_base_fractional_exponent_witness :
  binop Sample.glibc Pow (VInt (-8)) (VFloat 0.5)
  = Ok (VComplex 0x1.8f5a0be038ed7p-53 0x1.6a09e667f3bcdp+1).
Proof.
  refine (eq_trans
            (negative_base_fractional_exponent Sample.glibc (VInt (-8))
               (-8)%float 0.5%float _ _ _ _ _) _);
    reflexivity.
Defined.

(** C3 (counterexample): [(-8)**0.5] is not an error; it evaluates to the
    complex number 1.7319121124709868e-16+2.8284271247461903j. *)
Lemma sqrt_of_minus_eight_is_complex :
  Calc.safe_eval Sample.glibc "(-8)**0.5" ∅
  = Some (Ok (VComplex 0x1.8f5a0be038ed7p-53 0x1.6a09e667f3bcdp+1))
  ∧ CalcGui.safe_eval Sample.glibc "(-8)**0.5" ∅
  = Some (Ok (VComplex 0x1.8f5a0be038ed7p-53 0x1.6a09e667f3bcdp+1)).
Proof. split; vm_compute; reflexivity. Qed.

(** ** Percent *)



(** ** Floor division and modulo *)

(** On ints, [//] and [%] are the floored quotient and the remainder with
    the sign of the divisor. *)
Lemma int_floor_div_mod (M : platform) (a b : Z) :
  b ≠ 0 →
  ∃ q r, int_binop M FloorDiv a b = Ok (VInt q)
         ∧ int_binop M Mod a b = Ok (VInt r)
         ∧ a = b * q + r
         ∧ (0 <= r < b ∨ b < r <= 0).
Proof.
  intros Hb. exists (a / b), (a mod b). simpl.
  apply Z.eqb_neq in Hb as Hb'. rewrite Hb'.
  repeat split.
  - apply Z.div_mod. exact Hb.
  - destruct (Z.lt_ge_cases 0 b) as [Hpos|Hneg].
    + left. apply Z.mod_pos_bound. exact Hpos.
    + right. apply Z.mod_neg_bound. lia.
Qed.

(** C5 (the code at the failing input): on ints [//] and [%] are floored;
    in the line interface [-7//2] is -4 and [-7%2] is 1; in the graphical
    interface [-7//2] is -4 as well, but the percent rewriting turns [-7%2]
    into [-(7*0.01)2], which is a syntax error. *)
Theorem modulo_after_literal (M : platform) (names : gmap string value) :
  (∀ a b : Z, b ≠ 0 →
     ∃ q r, binop M FloorDiv (VInt a) (VInt b) = Ok (VInt q)
            ∧ binop M Mod (VInt a) (VInt b) = Ok (VInt r)
            ∧ a = b * q + r ∧ (0 <= r < b ∨ b < r <= 0))
  ∧ Calc.safe_eval M "-7//2" names = Some (Ok (VInt (-4)))
  ∧ Calc.safe_eval M "-7%2" names = Some (Ok (VInt 1))
  ∧ CalcGui.safe_eval M "-7//2" names = Some (Ok (VInt (-4)))
  ∧ CalcGui.percent_to_mul "-7%2" = "-(7*0.01)2"
  ∧ CalcGui.safe_eval M "-7%2" names = Some (Raise SyntaxError).
Proof.
  split; [|repeat split; reflexivity].
  intros a b Hb. exact (int_floor_div_mod M a b Hb).
Qed.

(** ** Precedence *)



(** ** True division *)


(** ** Names *)

(** C8: a name is looked up in the caller's bindings first and in the
    constants second, and is an error when it is in neither; [ans+1] is
    5.0 under [ans = 4.0] and an error without a binding. *)
Theorem name_resolution (M : platform) (names : gmap string value)
  (id : string) :
  let resolved :=
    match names !! id with
    | Some v => Ok v
    | None =>
        match Calc.ALLOWED_NAMES !! id with
        | Some v => Ok v
        | None => Raise (ValueError ("name '" +:+ id +:+ "' not allowed"))
        end
    end in
  Calc.visit M (Calc.SafeEval names) (Name id) = resolved
  ∧ CalcGui.visit M (CalcGui.SafeEval names) (Name id) = resolved
  ∧ Calc.safe_eval M "ans+1" {["ans" := VFloat 4]} = Some (Ok (VFloat 5))
  ∧ Calc.safe_eval M "ans+1" ∅
    = Some (Raise (ValueError "name 'ans' not allowed"))
  ∧ CalcGui.safe_eval M "ans+1" {["ans" := VFloat 4]} = Some (Ok (VFloat 5))
  ∧ CalcGui.safe_eval M "ans+1" ∅
    = Some (Raise (ValueError "name 'ans' not allowed"))
  ∧ Calc.safe_eval M "pi" {["pi" := VInt 3]} = Some (Ok (VInt 3)).
Proof.
  intros resolved.
  assert (Hlookup : ∀ allowed : gmap string value,
    match (names ∪ allowed) !! id with
    | Some v => Ok v
    | None => Raise (ValueError ("name '" +:+ id +:+ "' not allowed"))
    end
    = match names !! id with
      | Some v => Ok v
      | None =>
          match allowed !! id with
          | Some v => Ok v
          | None => Raise (ValueError ("name '" +:+ id +:+ "' not allowed"))
          end
      end).
  { intros allowed. rewrite lookup_union.
    destruct (names !! id), (allowed !! id); reflexivity. }
  repeat split; try apply Hlookup.
Qed.

(** ** Booleans *)

(** C10: [True] and [False] pass the check for numbers, [bool] being a
    subclass of [int]: [True] evaluates to the bool that equals 1 and is
    printed as 1, and [True+True] to the int 2. *)
Theorem booleans_are_numbers (M : platform) (names : gmap string value) :
  (∀ b, Calc.visit M names (Constant (CBool b)) = Ok (VBool b))
  ∧ (∀ b, CalcGui.visit M names (Constant (CBool b)) = Ok (VBool b))
  ∧ Calc.safe_eval M "True" names = Some (Ok (VBool true))
  ∧ eq_int (VBool true) 1 = true
  ∧ Calc.format_num M (VBool true) = Ok "1"
  ∧ Calc.safe_eval M "True+True" names = Some (Ok (VInt 2))
  ∧ CalcGui.safe_eval M "True" names = Some (Ok (VBool true))
  ∧ CalcGui.safe_eval M "True+True" names = Some (Ok (VInt 2)).
Proof.
  repeat split.
  unfold Calc.format_num, str_int. simpl.
  destruct (int_max_str_digits M) as [|[|n]]; reflexivity.
Qed.

(** ** Text of numbers *)




(** A number below [10 ^ k] has at most [k] digits. *)
Lemma digits_of_length_le (fuel : nat) (n : Z) (acc : list ascii) (k : nat) :
  0 <= n < 10 ^ Z.of_nat k → (1 <= k)%nat →
  (length (digits_of fuel n acc) <= k + length acc)%nat.
Proof.
  revert n acc k.
  induction fuel as [|fuel IH]; intros n acc k Hn Hk; cbn [digits_of].
  - lia.
  - destruct (n <? 10) eqn:Hlt; cbn [length]; [lia|].
    apply Z.ltb_ge in Hlt.
    destruct k as [|[|k]]; [lia| change (10 ^ Z.of_nat 1) with 10 in Hn; lia |].
    etransitivity.
    + apply (IH (n / 10) _ (S k)); [|lia].
      split; [apply Z.div_pos; lia|].
      apply Z.div_lt_upper_bound; [lia|].
      replace (Z.of_nat (S (S k))) with (Z.succ (Z.of_nat (S k))) in Hn by lia.
      rewrite Z.pow_succ_r in Hn by lia. lia.
    + cbn [length]. lia.
Qed.

Lemma length_string_of_list_ascii (l : list ascii) :
  String.length (string_of_list_ascii l) = length l.
Proof. induction l as [|c l IH]; simpl; congruence. Qed.


(** A number below [10 ^ k] has a text of at most [k] characters. *)
Lemma length_decimal (z : Z) (k : nat) :
  0 <= z < 10 ^ Z.of_nat k → (1 <= k)%nat → (String.length (decimal z) <= k)%nat.
Proof.
  intros Hz Hk. unfold decimal.
  rewrite length_string_of_list_ascii.
  replace (z <? 0) with false by (symmetry; apply Z.ltb_ge; lia).
  rewrite Z.abs_eq by lia.
  etransitivity; [apply digits_of_length_le; eassumption|]. cbn [length]. lia.
Qed.

(** The mantissa and exponent of a double: the mantissa has at most 53
    bits, the exponent is at most 971. *)
Lemma digits2_pos_bound (m : positive) :
  Z.pos m < 2 ^ Z.pos (digits2_pos m).
Proof.
  induction m as [m IH|m IH|]; simpl digits2_pos.
  - rewrite Pos2Z.inj_succ, Z.pow_succ_r by lia. lia.
  - rewrite Pos2Z.inj_succ, Z.pow_succ_r by lia. lia.
  - reflexivity.
Qed.

Lemma finite_bounds (f : float) (s : bool) (m : positive) (e : Z) :
  Prim2SF f = S754_finite s m e → Z.pos m < 2 ^ 53 ∧ e <= 971.
Proof.
  intros Hf. pose proof (Prim2SF_valid f) as Hv. rewrite Hf in Hv.
  unfold valid_binary, bounded, canonical_mantissa, fexp in Hv.
  apply andb_true_iff in Hv as [Hc He].
  apply Z.eqb_eq in Hc. apply Z.leb_le in He.
  change (emax - prec) with 971 in He.
  split; [|exact He].
  pose proof (digits2_pos_bound m) as Hd.
  assert (Hle : Z.pos (digits2_pos m) <= 53).
  { unfold emin in Hc. change prec with 53 in Hc. change emax with 1024 in Hc.
    lia. }
  eapply Z.lt_le_trans; [exact Hd|].
  apply Z.pow_le_mono_r; lia.
Qed.

(** The integer part of a double is below [2 ^ 1024]. *)
Lemma trunc_bound (f : float) (z : Z) :
  trunc f = Some z → Z.abs z < 2 ^ 1024.
Proof.
  unfold trunc. destruct (Prim2SF f) as [s0|s0| |s m e] eqn:Hf;
    try discriminate.
  - intros [= <-]. apply Z.pow_pos_nonneg; lia.
  - destruct (finite_bounds f s m e Hf) as [Hm He].
    intros [= <-].
    assert (Hsplit : 2 ^ 1024 = 2 ^ 53 * 2 ^ 971)
      by (rewrite <- Z.pow_add_r by lia; reflexivity).
    assert (H53 : 0 < 2 ^ 53) by (apply Z.pow_pos_nonneg; lia).
    assert (H971 : 0 < 2 ^ 971) by (apply Z.pow_pos_nonneg; lia).
    assert (Hmono : 0 <= e → 2 ^ e <= 2 ^ 971)
      by (intros; apply Z.pow_le_mono_r; lia).
    revert Hm Hsplit H53 H971 Hmono.
    generalize (2 ^ 53) (2 ^ 971) (2 ^ 1024). intros p53 p971 p1024.
    intros Hm -> H53 H971 Hmono.
    assert (Ha : 0 <= (if 0 <=? e then Z.pos m * 2 ^ e
                       else Z.pos m / 2 ^ (- e)) < p53 * p971).
    { destruct (0 <=? e) eqn:Hpos.
      - apply Z.leb_le in Hpos.
        assert (He' : 0 < 2 ^ e <= p971)
          by (split; [apply Z.pow_pos_nonneg; lia | auto]).
        nia.
      - apply Z.leb_gt in Hpos.
        assert (1 <= 2 ^ (- e)) by (apply Z.pow_le_mono_r with (b := 0); lia).
        split; [apply Z.div_pos; lia|].
        apply Z.le_lt_trans with (Z.pos m); [|nia].
        apply Z.div_le_upper_bound; [lia|]. nia. }
    destruct s; lia.
Qed.

Lemma SFeqb_refl_finite (s : bool) (m : positive) (e : Z) :
  SFeqb (S754_finite s m e) (S754_finite s m e) = true.
Proof.
  unfold SFeqb, SFcompare.
  destruct s; rewrite Z.compare_refl, Pos.compare_cont_refl; reflexivity.
Qed.

(** A float without fractional part is a number, and has an integer part. *)
Lemma is_integer_inv (f : float) :
  is_integer f = true → is_nan f = false ∧ ∃ z, trunc f = Some z.
Proof.
  unfold is_integer, trunc, is_nan. rewrite FloatAxioms.eqb_spec.
  destruct (Prim2SF f) as [s|s| |s m e]; try discriminate; intros _.
  - split; [destruct s; reflexivity | eauto].
  - rewrite SFeqb_refl_finite. split; [reflexivity | eauto].
Qed.

(** Within the limit, [str] gives the decimal text. *)
Lemma str_int_within_limit (M : platform) (z : Z) :
  within_limit M z → str_int M z = Ok (decimal z).
Proof.
  unfold within_limit, str_int. intros [-> | Hlen]; [reflexivity|].
  apply Nat.ltb_ge in Hlen. rewrite Hlen, andb_false_r. reflexivity.
Qed.

(** The integer part of a double is within every allowed limit. *)
Lemma trunc_within_limit (M : platform) (f : float) (z : Z) :
  limit_allowed M → trunc f = Some z → within_limit M z.
Proof.
  intros [H0 | H640] Hz; [left; exact H0 | right].
  assert (Hlen : (String.length (decimal (Z.abs z)) <= 309)%nat).
  { apply length_decimal; [|lia].
    split; [lia|].
    eapply Z.lt_trans; [apply (trunc_bound f z Hz)|].
    vm_compute. reflexivity. }
  lia.
Qed.

(** The two formatters on a float without fractional part and on any
    other float. *)
Lemma format_integral_float (M : platform) (f : float) :
  limit_allowed M → is_integer f = true →
  ∃ z, trunc f = Some z
       ∧ Calc.format_num M (VFloat f) = Ok (decimal z)
       ∧ CalcGui.fmt_num M (VFloat f) = Ok (decimal z).
Proof.
  intros Hlim Hint.
  destruct (is_integer_inv f Hint) as [Hnan [z Hz]].
  exists z. split; [exact Hz|].
  pose proof (str_int_within_limit M z (trunc_within_limit M f z Hlim Hz))
    as Hstr.
  unfold Calc.format_num, CalcGui.fmt_num.
  cbn [int as_double as_num num_to_float mbind result_bind eq_int].
  unfold float_eq_Z.
  rewrite Hnan, Hz, Hint. cbn [mbind result_bind andb].
  rewrite Z.eqb_refl, Hstr. split; reflexivity.
Qed.

Lemma format_other_float (M : platform) (f : float) :
  is_integer f = false →
  Calc.format_num M (VFloat f) = Ok (format_12g f)
  ∧ CalcGui.fmt_num M (VFloat f) = Ok (format_12g f).
Proof.
  intros Hint.
  unfold Calc.format_num, CalcGui.fmt_num.
  cbn [int as_double as_num num_to_float mbind result_bind eq_int].
  unfold float_eq_Z. rewrite Hint.
  split; [|reflexivity].
  destruct (is_nan f); [reflexivity|].
  destruct (trunc f); reflexivity.
Qed.


(** *** Significant digits *)

#[local] Open Scope list_scope.





















(** * Further properties *)

Import Shape.

(** ** Induction on trees *)

Lemma node_induction (P : node → Prop) :
  (∀ body, P body → P (Expression body)) →
  (∀ c, P (Constant c)) →
  (∀ id, P (Name id)) →
  (∀ op operand, P operand → P (UnaryOp op operand)) →
  (∀ lhs op rhs, P lhs → P rhs → P (BinOp lhs op rhs)) →
  (∀ func args keywords, Forall P args → P (Call func args keywords)) →
  (∀ k children, Forall P children → P (Other k children)) →
  ∀ n, P n.
Proof.
  intros HE HC HN HU HB HCall HO.
  fix IH 1. intros [body|c|id|op operand|lhs op rhs|func args keywords|k children].
  - apply HE, IH.
  - apply HC.
  - apply HN.
  - apply HU, IH.
  - apply HB; apply IH.
  - apply HCall. induction args as [|a args IHargs]; constructor.
    + apply IH.
    + exact IHargs.
  - apply HO. induction children as [|a children IHch]; constructor.
    + apply IH.
    + exact IHch.
Qed.

(** [mapM] succeeds when every element does. *)
Lemma mapM_Ok_inv {A B} (f : A → result B) (l : list A) (bs : list B) :
  mapM f l = Ok bs → Forall2 (λ a b, f a = Ok b) l bs.
Proof.
  revert bs. induction l as [|a l IH]; intros bs; cbn [mapM].
  - intros [= <-]. constructor.
  - destruct (f a) as [b|] eqn:Hfa; [|discriminate].
    destruct (mapM f l) as [bs'|]; [|discriminate].
    intros [= <-]. constructor; [exact Hfa | apply IH; reflexivity].
Qed.

(** ** The two evaluators *)

Section Agreement.
Context (M : platform) (names : gmap string value).

Lemma agree_bind {A B} (r1 r2 : result A) (k1 k2 : A → result B) :
  agree r1 r2 → (∀ a, agree (k1 a) (k2 a)) → agree (r1 ≫= k1) (r2 ≫= k2).
Proof.
  intros [<- | [-> [e ->]]] Hk.
  - destruct r1 as [a|e]; [apply Hk | left; reflexivity].
  - right. split; [reflexivity | eauto].
Qed.

Lemma agree_mapM (args : list node) :
  Forall (λ a, agree (Calc.visit M names a) (CalcGui.visit M names a)) args →
  agree (mapM (Calc.visit M names) args) (mapM (CalcGui.visit M names) args).
Proof.
  induction 1 as [|a args Ha _ IH]; cbn [mapM]; [left; reflexivity|].
  destruct Ha as [<- | [-> [e ->]]].
  - destruct (Calc.visit M names a) as [v|e]; [|left; reflexivity].
    destruct IH as [<- | [-> [e ->]]].
    + left. reflexivity.
    + right. split; [reflexivity | eauto].
  - right. split; [reflexivity | eauto].
Qed.

Lemma visit_agree (n : node) :
  agree (Calc.visit M names n) (CalcGui.visit M names n).
Proof.
  induction n as [body IH|c|id|op operand IH|lhs op rhs IHl IHr
                 |func args keywords IH|k children IH] using node_induction.
  - exact IH.
  - left. reflexivity.
  - left. reflexivity.
  - cbn [Calc.visit CalcGui.visit].
    unfold Calc.visit_UnaryOp, CalcGui.visit_UnaryOp.
    apply agree_bind; [exact IH|]. intros v. left. reflexivity.
  - cbn [Calc.visit CalcGui.visit].
    unfold Calc.visit_BinOp, CalcGui.visit_BinOp.
    apply agree_bind; [exact IHl|]. intros a.
    apply agree_bind; [exact IHr|]. intros b. left. reflexivity.
  - cbn [Calc.visit CalcGui.visit].
    unfold Calc.visit_Call, CalcGui.visit_Call.
    destruct func as [| |f| | | |]; try (left; reflexivity).
    change (CalcGui.ALLOWED_FUNCS !! f) with (Calc.ALLOWED_FUNCS !! f).
    destruct (Calc.ALLOWED_FUNCS !! f) as [fn|]; [|left; reflexivity].
    destruct keywords as [|kw keywords].
    + change (bool_decide (@nil (string * node) = [])) with true.
      cbn [negb orb]. rewrite orb_false_r.
      destruct (negb _) eqn:Hcount.
      * right. split; [reflexivity|].
        destruct (mapM (CalcGui.visit M names) args) as [vs|e] eqn:Hvs;
          [|cbn; eauto].
        exists TypeError. cbn.
        apply negb_true_iff, andb_false_iff in Hcount.
        pose proof (mapM_length _ _ _ Hvs) as Hlen.
        destruct fn;
          try (apply call_wrong_count; [discriminate|];
               rewrite Hlen; destruct Hcount as [H|H];
               [apply Nat.ltb_ge in H | apply Nat.leb_gt in H]; lia).
        apply call_log_wrong_count. rewrite Hlen.
        destruct Hcount as [H|H];
          [apply Nat.ltb_ge in H | apply Nat.leb_gt in H]; lia.
      * apply agree_bind; [apply agree_mapM; exact IH|].
        intros vs. left. reflexivity.
    + right. rewrite (bool_decide_eq_false_2 _) by discriminate.
      cbn [negb]. rewrite orb_true_r. split; [reflexivity | eauto].
  - cbn [Calc.visit CalcGui.visit].
    unfold Calc.generic_visit, CalcGui.generic_visit.
    change CalcGui.forbidden with Calc.forbidden.
    destruct (bool_decide (k ∈ Calc.forbidden)); [left; reflexivity|].
    apply agree_bind; [apply agree_mapM; exact IH|].
    intros vs. left. reflexivity.
Qed.

(** A value is returned by one evaluator exactly when it is by the other. *)
Lemma visit_same_values (n : node) (v : value) :
  Calc.visit M names n = Ok v ↔ CalcGui.visit M names n = Ok v.
Proof.
  destruct (visit_agree n) as [<- | [Hc [e Hg]]]; [tauto|].
  rewrite Hc, Hg. split; discriminate.
Qed.

(** X1: the evaluators of calc.py and calc_gui.py return the same values.
    On every tree their results are equal, unless calc.py raises its
    arity error, and then calc_gui.py raises an error as well; so a value
    is returned by one exactly when it is returned by the other. *)
Theorem evaluators_agree (n : node) :
  agree (Calc.visit M names n) (CalcGui.visit M names n)
  ∧ (∀ v, Calc.visit M names n = Ok v ↔ CalcGui.visit M names n = Ok v).
Proof. split; [apply visit_agree | apply visit_same_values]. Qed.

End Agreement.

(** ** What evaluates *)

Lemma binop_None_l (M : platform) (op : operator) (b : value) :
  binop M op VNone b = Raise TypeError.
Proof. reflexivity. Qed.

Lemma binop_None_r (M : platform) (op : operator) (a : value) :
  binop M op a VNone = Raise TypeError.
Proof. unfold binop. destruct (as_num a) as [[z|f|c]|]; reflexivity. Qed.

Lemma math_1_None (func : float → float) : math_1 func VNone = Raise TypeError.
Proof. reflexivity. Qed.

Lemma loghelper_None (func : float → float) : loghelper func VNone = Raise TypeError.
Proof. reflexivity. Qed.

(** A math function returns only when it is given a number of arguments it
    takes, none of them [None]. *)
Lemma call_Ok_inv (M : platform) (fn : mathfn) (vs : list value) (v : value) :
  call M fn vs = Ok v →
  takes fn (length vs) = true ∧ Forall (λ a, a ≠ VNone) vs.
Proof.
  intros Hcall.
  assert (Hone : ∀ a, (∀ func, math_1 func a ≠ Raise TypeError)
                      ∨ (∀ func, loghelper func a ≠ Raise TypeError) →
                      a ≠ VNone).
  { intros a [H|H] ->; [apply (H (λ x, x)) | apply (H (λ x, x))]; reflexivity. }
  destruct fn; destruct vs as [|a [|b [|c vs]]]; try discriminate Hcall;
    cbn [takes length Nat.eqb orb]; (split; [reflexivity|]);
    repeat constructor; intros ->; cbn in Hcall; try discriminate Hcall.
  destruct (loghelper (log_wrapper (m_log M)) a); discriminate Hcall.
Qed.

Lemma forallb_Forall {A} (f : A → bool) (l : list A) :
  Forall (λ a, f a = true) l → forallb f l = true.
Proof.
  induction 1 as [|a l Ha _ IH]; [reflexivity|].
  cbn [forallb]. rewrite Ha, IH. reflexivity.
Qed.

(** What holds of every element that is visited with success holds of all
    the elements of a list visited with success. *)
Lemma visited_Forall (visit : node → result value) (P : node → Prop)
  (args : list node) (vs : list value) :
  mapM visit args = Ok vs →
  Forall (λ a, ∀ v, visit a = Ok v → P a) args → Forall P args.
Proof.
  intros Hvs%mapM_Ok_inv HP.
  induction Hvs as [|a b args vs Hab _ IH]; [constructor|].
  inversion HP; subst. constructor; eauto.
Qed.

Section Soundness.
Context (M : platform) (names : gmap string value).

Lemma visit_admitted (n : node) (v : value) :
  Calc.visit M names n = Ok v → admitted n = true.
Proof.
  revert v.
  induction n as [body IH|c|id|op operand IH|lhs op rhs IHl IHr
                 |func args keywords IH|k children IH] using node_induction;
    intros v; cbn [Calc.visit admitted].
  - apply IH.
  - destruct c; (discriminate || reflexivity).
  - reflexivity.
  - unfold Calc.visit_UnaryOp.
    destruct (Calc.visit M names operand) as [a|] eqn:Ha; [|discriminate].
    cbn [mbind result_bind]. rewrite (IH a eq_refl).
    destruct op; (discriminate || reflexivity).
  - unfold Calc.visit_BinOp.
    destruct (Calc.visit M names lhs) as [a|] eqn:Ha; [|discriminate].
    destruct (Calc.visit M names rhs) as [b|] eqn:Hb; [|discriminate].
    cbn [mbind result_bind]. rewrite (IHl a eq_refl), (IHr b eq_refl).
    destruct op; (discriminate || reflexivity).
  - unfold Calc.visit_Call, registered_call.
    destruct func as [| |f| | | |]; try discriminate.
    destruct (Calc.ALLOWED_FUNCS !! f) as [fn|]; [|discriminate].
    destruct keywords as [|kw keywords];
      [|rewrite (bool_decide_eq_false_2 _) by discriminate;
        cbn [negb]; rewrite orb_true_r; discriminate].
    destruct (negb _ || _); [discriminate|].
    destruct (mapM (Calc.visit M names) args) as [vs|] eqn:Hvs; [|discriminate].
    cbn [mbind result_bind]. intros Hcall.
    destruct (call_Ok_inv M fn vs v Hcall) as [Htakes _].
    rewrite <- (mapM_length _ _ _ Hvs), Htakes. cbn [andb].
    apply forallb_Forall. exact (visited_Forall _ _ _ _ Hvs IH).
  - unfold Calc.generic_visit.
    destruct (bool_decide (k ∈ Calc.forbidden)); [discriminate|].
    destruct (mapM (Calc.visit M names) children) as [vs|] eqn:Hvs; [|discriminate].
    intros _. cbn [negb andb].
    apply forallb_Forall. exact (visited_Forall _ _ _ _ Hvs IH).
Qed.

(** X2: what the evaluators return a value on.  A tree that either of them
    evaluates without an error has numbers for constants, allowed
    operators, and calls of registered functions by name with a number of
    positional arguments the function takes and no keyword argument; and
    no node of it is of a class [generic_visit] lists. *)
Theorem evaluation_admits (n : node) (v : value) :
  Calc.visit M names n = Ok v ∨ CalcGui.visit M names n = Ok v →
  admitted n = true.
Proof.
  intros [H|H%visit_same_values]; exact (visit_admitted n v H).
Qed.

(** A visit with [mapM], with what is known of the values. *)
Lemma visited_values_Forall (visit : node → result value)
  (Q : value → Prop) (P : node → Prop) (args : list node) (vs : list value) :
  mapM visit args = Ok vs → Forall Q vs →
  Forall (λ a, ∀ v, visit a = Ok v → Q v → P a) args → Forall P args.
Proof.
  intros Hvs%mapM_Ok_inv HQ HP.
  induction Hvs as [|a b args vs Hab _ IH]; [constructor|].
  inversion HP; subst. inversion HQ; subst. constructor; eauto.
Qed.

Lemma visit_strict (n : node) (v : value) :
  Calc.visit M names n = Ok v → v ≠ VNone → strict n = true.
Proof.
  revert v.
  induction n as [body IH|c|id|op operand IH|lhs op rhs IHl IHr
                 |func args keywords IH|k children IH] using node_induction;
    intros v; cbn [Calc.visit strict].
  - apply IH.
  - destruct c; (discriminate || reflexivity).
  - reflexivity.
  - unfold Calc.visit_UnaryOp.
    destruct (Calc.visit M names operand) as [a|] eqn:Ha; [|discriminate].
    cbn [mbind result_bind]. intros Hop _.
    assert (Hna : a ≠ VNone) by (intros ->; destruct op; discriminate Hop).
    rewrite (IH a eq_refl Hna).
    destruct op; (discriminate || reflexivity).
  - unfold Calc.visit_BinOp.
    destruct (Calc.visit M names lhs) as [a|] eqn:Ha; [|discriminate].
    destruct (Calc.visit M names rhs) as [b|] eqn:Hb; [|discriminate].
    cbn [mbind result_bind]. intros Hop _.
    assert (Hna : a ≠ VNone).
    { intros ->. rewrite binop_None_l in Hop. destruct op; discriminate Hop. }
    assert (Hnb : b ≠ VNone).
    { intros ->. rewrite binop_None_r in Hop. destruct op; discriminate Hop. }
    rewrite (IHl a eq_refl Hna), (IHr b eq_refl Hnb).
    destruct op; (discriminate || reflexivity).
  - unfold Calc.visit_Call, registered_call.
    destruct func as [| |f| | | |]; try discriminate.
    destruct (Calc.ALLOWED_FUNCS !! f) as [fn|]; [|discriminate].
    destruct keywords as [|kw keywords];
      [|rewrite (bool_decide_eq_false_2 _) by discriminate;
        cbn [negb]; rewrite orb_true_r; discriminate].
    destruct (negb _ || _); [discriminate|].
    destruct (mapM (Calc.visit M names) args) as [vs|] eqn:Hvs; [|discriminate].
    cbn [mbind result_bind]. intros Hcall _.
    destruct (call_Ok_inv M fn vs v Hcall) as [Htakes Hvals].
    rewrite <- (mapM_length _ _ _ Hvs), Htakes. cbn [andb].
    apply forallb_Forall.
    exact (visited_values_Forall _ _ _ _ _ Hvs Hvals IH).
  - unfold Calc.generic_visit.
    destruct (bool_decide (k ∈ Calc.forbidden)); [discriminate|].
    destruct (mapM (Calc.visit M names) children); [|discriminate].
    intros [= <-] Hv. congruence.
Qed.

(** X3: [None] never turns into a number.  Whenever either evaluator
    returns a value other than [None], the tree is of the calculator's
    grammar throughout: no node of it is of a class outside the five
    recognised ones, although [generic_visit] lets some of them through. *)
Theorem value_only_from_strict_tree (n : node) (v : value) :
  Calc.visit M names n = Ok v ∨ CalcGui.visit M names n = Ok v →
  v ≠ VNone → strict n = true.
Proof.
  intros [H|H%visit_same_values]; exact (visit_strict n v H).
Qed.

End Soundness.

Lemma evaluation_admits_witness :
  admitted (Other ast_Set [BinOp (Constant (CInt 1)) Add (Constant (CInt 2))])
  = true.
Proof.
  refine (evaluation_admits Sample.glibc ∅
            (Other ast_Set [BinOp (Constant (CInt 1)) Add (Constant (CInt 2))])
            VNone _).
  left. reflexivity.
Defined.

Lemma value_only_from_strict_tree_witness :
  strict (Call (Name "sqrt") [BinOp (Name "pi") Mult (Constant (CInt 4))] [])
  = true.
Proof.
  refine (value_only_from_strict_tree Sample.glibc Calc.ALLOWED_NAMES
            (Call (Name "sqrt") [BinOp (Name "pi") Mult (Constant (CInt 4))] [])
            (VFloat 0x1.c5bf891b4ef6ap+1) _ _).
  - right. vm_compute. reflexivity.
  - discriminate.
Defined.

(** ** Bindings *)

(** Two visits that agree on the elements agree on the list. *)
Lemma mapM_frame (m1 m2 : gmap string value)
  (visit : gmap string value → node → result value) (args : list node) :
  Forall (λ a, (∀ id, In id (names_in a) → m1 !! id = m2 !! id) →
               visit m1 a = visit m2 a) args →
  (∀ id, In id (flat_map names_in args) → m1 !! id = m2 !! id) →
  mapM (visit m1) args = mapM (visit m2) args.
Proof.
  induction 1 as [|a args Ha _ IH]; intros Hm; cbn [mapM]; [reflexivity|].
  cbn [flat_map] in Hm.
  rewrite Ha by (intros id Hid; apply Hm, in_or_app; left; exact Hid).
  rewrite IH by (intros id Hid; apply Hm, in_or_app; right; exact Hid).
  reflexivity.
Qed.

Lemma calc_visit_frame (M : platform) (m1 m2 : gmap string value) (n : node) :
  (∀ id, In id (names_in n) → m1 !! id = m2 !! id) →
  Calc.visit M m1 n = Calc.visit M m2 n.
Proof.
  induction n as [body IH|c|id|op operand IH|lhs op rhs IHl IHr
                 |func args keywords IH|k children IH] using node_induction;
    cbn [Calc.visit names_in]; intros Hm.
  - apply IH, Hm.
  - reflexivity.
  - unfold Calc.visit_Name. rewrite (Hm id) by (left; reflexivity). reflexivity.
  - unfold Calc.visit_UnaryOp. rewrite (IH Hm). reflexivity.
  - unfold Calc.visit_BinOp.
    rewrite IHl by (intros id Hid; apply Hm, in_or_app; left; exact Hid).
    rewrite IHr by (intros id Hid; apply Hm, in_or_app; right; exact Hid).
    reflexivity.
  - unfold Calc.visit_Call.
    rewrite (mapM_frame m1 m2 (Calc.visit M) _ IH Hm). reflexivity.
  - unfold Calc.generic_visit.
    rewrite (mapM_frame m1 m2 (Calc.visit M) _ IH Hm). reflexivity.
Qed.

Lemma gui_visit_frame (M : platform) (m1 m2 : gmap string value) (n : node) :
  (∀ id, In id (names_in n) → m1 !! id = m2 !! id) →
  CalcGui.visit M m1 n = CalcGui.visit M m2 n.
Proof.
  induction n as [body IH|c|id|op operand IH|lhs op rhs IHl IHr
                 |func args keywords IH|k children IH] using node_induction;
    cbn [CalcGui.visit names_in]; intros Hm.
  - apply IH, Hm.
  - reflexivity.
  - unfold CalcGui.visit_Name. rewrite (Hm id) by (left; reflexivity). reflexivity.
  - unfold CalcGui.visit_UnaryOp. rewrite (IH Hm). reflexivity.
  - unfold CalcGui.visit_BinOp.
    rewrite IHl by (intros id Hid; apply Hm, in_or_app; left; exact Hid).
    rewrite IHr by (intros id Hid; apply Hm, in_or_app; right; exact Hid).
    reflexivity.
  - unfold CalcGui.visit_Call.
    rewrite (mapM_frame m1 m2 (CalcGui.visit M) _ IH Hm). reflexivity.
  - unfold CalcGui.generic_visit.
    rewrite (mapM_frame m1 m2 (CalcGui.visit M) _ IH Hm). reflexivity.
Qed.

(** X4: the bindings matter only through the names in the tree.  Two
    binding maps that agree on every name the tree mentions (the callee of
    a call apart) give the same result, in both evaluators; the bindings
    can neither add a function nor change one. *)
Theorem evaluation_depends_on_mentioned_names (M : platform)
  (names1 names2 : gmap string value) (n : node) :
  (∀ id, In id (names_in n) → names1 !! id = names2 !! id) →
  Calc.visit M (Calc.SafeEval names1) n = Calc.visit M (Calc.SafeEval names2) n
  ∧ CalcGui.visit M (CalcGui.SafeEval names1) n
    = CalcGui.visit M (CalcGui.SafeEval names2) n.
Proof.
  intros Hm.
  assert (Hu : ∀ allowed : gmap string value,
    ∀ id, In id (names_in n) → (names1 ∪ allowed) !! id = (names2 ∪ allowed) !! id).
  { intros allowed id Hid. rewrite !lookup_union, (Hm id Hid). reflexivity. }
  split.
  - apply calc_visit_frame, Hu.
  - apply gui_visit_frame, Hu.
Qed.

Lemma evaluation_depends_on_mentioned_names_witness :
  Calc.visit Sample.glibc (Calc.SafeEval {["ans" := VFloat 4]})
    (BinOp (Name "pi") Mult (Constant (CInt 2)))
  = Calc.visit Sample.glibc (Calc.SafeEval ∅)
      (BinOp (Name "pi") Mult (Constant (CInt 2))).
Proof.
  refine (proj1 (evaluation_depends_on_mentioned_names Sample.glibc
                   {["ans" := VFloat 4]} ∅
                   (BinOp (Name "pi") Mult (Constant (CInt 2))) _)).
  intros id [<- | []]. reflexivity.
Defined.

(** ** Arithmetic *)

Lemma to_float_cases (z : Z) :
  to_float z = Raise OverflowError ∨ to_float z = Ok (float_of_Z z).
Proof. unfold to_float. destruct (is_infinity (float_of_Z z)); auto. Qed.

Lemma as_double_real (v : value) :
  Spec.is_real v = true →
  as_double v = Raise OverflowError ∨ ∃ x, as_double v = Ok x.
Proof.
  destruct v as [|b|z|f|re im]; try discriminate; intros _; unfold as_double;
    cbn [as_num num_to_float]; eauto;
    match goal with |- context [to_float ?z] =>
      destruct (to_float_cases z) as [-> | ->]; eauto end.
Qed.

(** X5: division by zero.  For [/], [//] and [%] on ints and floats, a
    zero divisor (the int 0, [False], 0.0 or -0.0) raises
    [ZeroDivisionError], whatever the dividend; the only other outcome is
    the [OverflowError] of an int dividend too large to be divided by a
    float. *)
Theorem division_by_zero (M : platform) (op : operator) (a b : value) :
  op = Div ∨ op = FloorDiv ∨ op = Mod →
  is_real a = true → is_zero_value b = true →
  binop M op a b = Raise ZeroDivisionError
  ∨ (binop M op a b = Raise OverflowError
     ∧ is_int a = true ∧ as_double a = Raise OverflowError).
Proof.
  intros Hop Ha Hb.
  assert (Hii : ∀ x y : Z, (y =? 0) = true →
            int_binop M op x y = Raise ZeroDivisionError).
  { intros x y Hy. destruct Hop as [-> | [-> | ->]]; cbn; rewrite Hy; reflexivity. }
  assert (Hff : ∀ x y : float, PrimFloat.eqb y 0 = true →
            float_binop M op x y = Raise ZeroDivisionError).
  { intros x y Hy. destruct Hop as [-> | [-> | ->]]; cbn; rewrite Hy; reflexivity. }
  assert (Hz0 : to_float 0 = Ok 0%float) by reflexivity.
  assert (Hif : ∀ (x : Z) (y : float), PrimFloat.eqb y 0 = true →
            (x' ← to_float x; y' ← Ok y; float_binop M op x' y')
            = Raise ZeroDivisionError
            ∨ ((x' ← to_float x; y' ← Ok y; float_binop M op x' y')
               = Raise OverflowError ∧ to_float x = Raise OverflowError)).
  { intros x y Hy. destruct (to_float_cases x) as [Hx | Hx]; rewrite Hx.
    - right. split; reflexivity.
    - left. cbn [mbind result_bind]. apply Hff, Hy. }
  destruct a as [|ba|za|fa|rea ima]; try discriminate Ha;
    destruct b as [|bb|zb|fb|reb imb]; try discriminate Hb;
    cbn [is_zero_value] in Hb; unfold binop, as_double;
    cbn [as_num num_to_float is_int].
  - left. apply Hii. destruct bb; [discriminate | reflexivity].
  - left. apply Hii, Hb.
  - destruct (Hif (Z.b2z ba) fb Hb) as [H | [H1 H2]];
      [left; exact H | right; repeat split; assumption].
  - left. apply Hii. destruct bb; [discriminate | reflexivity].
  - left. apply Hii, Hb.
  - destruct (Hif za fb Hb) as [H | [H1 H2]];
      [left; exact H | right; repeat split; assumption].
  - left. destruct bb; [discriminate|]. cbn [Z.b2z]. rewrite Hz0.
    cbn [mbind result_bind]. apply Hff. reflexivity.
  - left. apply Z.eqb_eq in Hb. subst zb. rewrite Hz0.
    cbn [mbind result_bind]. apply Hff. reflexivity.
  - left. cbn [mbind result_bind]. apply Hff, Hb.
Qed.

Lemma division_by_zero_witness :
  binop Sample.glibc FloorDiv (VFloat 7.5) (VBool false)
  = Raise ZeroDivisionError
  ∨ (binop Sample.glibc FloorDiv (VFloat 7.5) (VBool false)
     = Raise OverflowError
     ∧ is_int (VFloat 7.5) = true
     ∧ as_double (VFloat 7.5) = Raise OverflowError).
Proof.
  refine (division_by_zero Sample.glibc FloorDiv (VFloat 7.5) (VBool false)
            _ _ _).
  - right. left. reflexivity.
  - reflexivity.
  - reflexivity.
Defined.

(** X6: [+], [-] and [*] keep ints exact and give a float as soon as one
    operand is a float.  On two ints (bools counting as 0 and 1) the result
    is the int computed without rounding or overflow; with a float operand
    the result is a float, unless an int operand is too large to be
    converted. *)
Theorem sum_and_product_types (M : platform) (op : operator) (a b : value) :
  op = Add ∨ op = Sub ∨ op = Mult →
  is_real a = true → is_real b = true →
  let exact :=
    match op with
    | Add => int_of a + int_of b
    | Sub => int_of a - int_of b
    | _ => int_of a * int_of b
    end in
  if is_int a && is_int b then binop M op a b = Ok (VInt exact)
  else (∃ f, binop M op a b = Ok (VFloat f))
       ∨ binop M op a b = Raise OverflowError.
Proof.
  intros Hop Ha Hb exact. subst exact.
  assert (Hff : ∀ rx ry : result float,
    (rx = Raise OverflowError ∨ ∃ x, rx = Ok x) →
    (ry = Raise OverflowError ∨ ∃ y, ry = Ok y) →
    (∃ f, (x' ← rx; y' ← ry; float_binop M op x' y') = Ok (VFloat f))
    ∨ (x' ← rx; y' ← ry; float_binop M op x' y') = Raise OverflowError).
  { intros rx ry [-> | [x ->]] Hy; [right; reflexivity|].
    destruct Hy as [-> | [y ->]]; [right; reflexivity|].
    left. destruct Hop as [-> | [-> | ->]]; cbn; eauto. }
  pose proof (as_double_real a Ha) as Hda.
  pose proof (as_double_real b Hb) as Hdb.
  unfold as_double in Hda, Hdb.
  destruct a as [|ba|za|fa|rea ima]; try discriminate Ha;
    destruct b as [|bb|zb|fb|reb imb]; try discriminate Hb;
    cbn [is_int andb int_of]; unfold binop;
    cbn [as_num num_to_float] in *;
    try (destruct Hop as [-> | [-> | ->]]; reflexivity);
    apply Hff; assumption.
Qed.

Lemma sum_and_product_types_witness :
  binop Sample.glibc Mult (VBool true) (VInt 7) = Ok (VInt 7).
Proof.
  refine (sum_and_product_types Sample.glibc Mult (VBool true) (VInt 7) _ _ _).
  - right. right. reflexivity.
  - reflexivity.
  - reflexivity.
Defined.

(** ** Domains of the functions *)

Lemma is_nan_nan : is_nan nan = true.
Proof. reflexivity. Qed.

(** The logarithm wrappers on a float that is neither positive nor NaN:
    the C function is not asked, and the result is a domain error. *)
Lemma log_not_positive (log : float → float) (f : float) :
  PrimFloat.ltb 0 f = false → is_nan f = false →
  math_1 (log_wrapper log) (VFloat f) = Raise (ValueError "math domain error").
Proof.
  intros Hpos Hnan. unfold math_1, as_double, log_wrapper, is_finite.
  cbn [as_num num_to_float mbind result_bind].
  rewrite Hpos, Hnan. cbn [orb negb].
  destruct (is_infinity f) eqn:Hinf; cbn [negb andb].
  - reflexivity.
  - destruct (PrimFloat.eqb f 0); reflexivity.
Qed.

(** X7: the logarithms reject what has no logarithm, whatever the C
    library does.  When the argument of [log] or [ln] evaluates to an int
    that is not positive ([False] included) or to a float that is neither
    positive nor NaN, the call raises [ValueError("math domain error")], in
    both evaluators. *)
Theorem logarithm_domain (M : platform) (names : gmap string value)
  (fname : string) (arg : node) (v : value) :
  fname = "log" ∨ fname = "ln" →
  Calc.visit M names arg = Ok v →
  not_positive v = true →
  Calc.visit M names (Call (Name fname) [arg] [])
  = Raise (ValueError "math domain error")
  ∧ CalcGui.visit M names (Call (Name fname) [arg] [])
    = Raise (ValueError "math domain error").
Proof.
  intros Hf Hv Hnp.
  pose proof (proj1 (visit_same_values M names arg v) Hv) as Hg.
  assert (Hcall : ∀ fn, fn = math_log10 ∨ fn = math_log →
            call M fn [v] = Raise (ValueError "math domain error")).
  { intros fn Hfn.
    assert (Hlog : ∀ log, loghelper (log_wrapper log) v
                          = Raise (ValueError "math domain error")).
    { intros log. destruct v as [|b|z|f|re im]; try discriminate Hnp;
        cbn [not_positive] in Hnp.
      - destruct b; [discriminate | reflexivity].
      - cbn [loghelper]. rewrite Hnp. reflexivity.
      - apply andb_true_iff in Hnp as [Hp Hn].
        apply negb_true_iff in Hp. apply negb_true_iff in Hn.
        apply log_not_positive; assumption. }
    destruct Hfn as [-> | ->]; cbn [call]; apply Hlog. }
  split; cbn [Calc.visit CalcGui.visit];
    unfold Calc.visit_Call, CalcGui.visit_Call;
    destruct Hf as [-> | ->];
    match goal with
    | |- context [?m !! ?k] =>
        let r := eval vm_compute in (m !! k) in
        change (m !! k) with r
    end;
    cbn [length Nat.ltb Nat.leb negb andb orb mapM mbind result_bind];
    rewrite ?Hv, ?Hg; cbn [mbind result_bind]; apply Hcall; auto.
Qed.

Lemma logarithm_domain_witness :
  Calc.visit Sample.glibc ∅
    (Call (Name "ln") [BinOp (Constant (CInt 2)) Sub (Constant (CFloat 2))] [])
  = Raise (ValueError "math domain error").
Proof.
  refine (proj1 (logarithm_domain Sample.glibc ∅ "ln"
                   (BinOp (Constant (CInt 2)) Sub (Constant (CFloat 2)))
                   (VFloat 0) _ _ _)).
  - right. reflexivity.
  - reflexivity.
  - reflexivity.
Defined.

(** The square root of a float below zero is NaN. *)
Lemma sqrt_negative (f : float) :
  PrimFloat.ltb f 0 = true → is_nan (PrimFloat.sqrt f) = true.
Proof.
  unfold is_nan. rewrite ltb_spec, FloatAxioms.eqb_spec, sqrt_spec, Prim2SF_zero.
  destruct (Prim2SF f) as [[]|[]| |[] m e]; try discriminate; reflexivity.
Qed.

(** X8: [sqrt] rejects negative floats.  When the argument of [sqrt]
    evaluates to a float below zero (minus infinity included), the call
    raises [ValueError("math domain error")] in both evaluators; so does
    [sqrt(-1)], whose argument is an int. *)
Theorem sqrt_domain (M : platform) (names : gmap string value)
  (arg : node) (f : float) :
  Calc.visit M names arg = Ok (VFloat f) →
  PrimFloat.ltb f 0 = true →
  Calc.visit M names (Call (Name "sqrt") [arg] [])
  = Raise (ValueError "math domain error")
  ∧ CalcGui.visit M names (Call (Name "sqrt") [arg] [])
    = Raise (ValueError "math domain error")
  ∧ Calc.safe_eval M "sqrt(-1)" names
    = Some (Raise (ValueError "math domain error"))
  ∧ CalcGui.safe_eval M "sqrt(-1)" names
    = Some (Raise (ValueError "math domain error")).
Proof.
  intros Hv Hneg.
  pose proof (proj1 (visit_same_values M names arg _) Hv) as Hg.
  assert (Hcall : call M math_sqrt [VFloat f]
                  = Raise (ValueError "math domain error")).
  { cbn [call]. unfold math_1, as_double.
    cbn [as_num num_to_float mbind result_bind].
    rewrite (sqrt_negative f Hneg), (proj2 (ltb_zero f Hneg)). reflexivity. }
  repeat split; try reflexivity;
    cbn [Calc.visit CalcGui.visit];
    unfold Calc.visit_Call, CalcGui.visit_Call;
    match goal with
    | |- context [?m !! ?k] =>
        let r := eval vm_compute in (m !! k) in
        change (m !! k) with r
    end;
    cbn [length Nat.ltb Nat.leb negb andb orb mapM mbind result_bind];
    rewrite ?Hv, ?Hg; cbn [mbind result_bind]; exact Hcall.
Qed.

Lemma sqrt_domain_witness :
  Calc.visit Sample.glibc ∅
    (Call (Name "sqrt") [UnaryOp USub (Constant (CFloat 2.5))] [])
  = Raise (ValueError "math domain error").
Proof.
  refine (proj1 (sqrt_domain Sample.glibc ∅
                   (UnaryOp USub (Constant (CFloat 2.5))) (-2.5)%float _ _)).
  - reflexivity.
  - reflexivity.
Defined.

(** ** The formatters and the interfaces *)

(** X9: on a float the two formatters never fail and print the same text,
    for every float (NaN and the infinities included), as long as the
    interpreter's limit on int texts is one CPython allows. *)
Theorem formatters_agree_on_floats (M : platform) (f : float) :
  limit_allowed M →
  ∃ s, Calc.format_num M (VFloat f) = Ok s
       ∧ CalcGui.fmt_num M (VFloat f) = Ok s.
Proof.
  intros Hlim. destruct (is_integer f) eqn:Hint.
  - destruct (format_integral_float M f Hlim Hint) as (z & _ & Hc & Hg). eauto.
  - destruct (format_other_float M f Hint) as [Hc Hg]. eauto.
Qed.

Lemma formatters_agree_on_floats_witness :
  ∃ s, Calc.format_num Sample.glibc (VFloat infinity) = Ok s
       ∧ CalcGui.fmt_num Sample.glibc (VFloat infinity) = Ok s.
Proof.
  refine (formatters_agree_on_floats Sample.glibc infinity _).
  right. cbn. lia.
Defined.

Lemma format_num_not_real (M : platform) (v : value) :
  is_real v = false → Calc.format_num M v = Raise TypeError.
Proof. destruct v; try discriminate; reflexivity. Qed.

(** X10: the interfaces show real numbers only.  Whenever the one-shot
    command, a turn of the prompt loop or the [=] key of the graphical
    interface shows a result, the evaluator returned an int, a bool or a
    float, and the new [ans] is that value as a float; [None] and complex
    results, which the evaluator can return, end in [TypeError]. *)
Theorem interfaces_show_reals (M : platform) :
  (∀ expr s, Calc.run_oneshot M expr = Some (Ok s) →
     ∃ v, Calc.safe_eval M expr ∅ = Some (Ok v) ∧ is_real v = true
          ∧ Calc.format_num M v = Ok s)
  ∧ (∀ ans line ans' s, Calc.repl_step M ans line = Some (Ok (ans', s)) →
       ∃ v, Calc.safe_eval M line {["ans" := VFloat ans]} = Some (Ok v)
            ∧ is_real v = true ∧ as_double v = Ok ans')
  ∧ (∀ last s f res, CalcGui.equals M last s = Some (Ok (f, res)) →
       ∃ v, CalcGui.safe_eval M s {["ans" := VFloat last]} = Some (Ok v)
            ∧ is_real v = true ∧ as_double v = Ok f)
  ∧ (∀ v, is_real v = false →
       Calc.format_num M v = Raise TypeError ∧ as_double v = Raise TypeError).
Proof.
  assert (Hdouble : ∀ v x, as_double v = Ok x → is_real v = true)
    by (intros [] x; (discriminate || reflexivity)).
  repeat split.
  - intros expr s. unfold Calc.run_oneshot.
    destruct (Calc.safe_eval M expr ∅) as [[v|e]|]; try discriminate.
    cbn. intros [= Hs]. exists v. repeat split; [|exact Hs].
    destruct (is_real v) eqn:Hr; [reflexivity|].
    rewrite (format_num_not_real M v Hr) in Hs. discriminate Hs.
  - intros ans line ans' s. unfold Calc.repl_step.
    destruct (Calc.safe_eval M line _) as [[v|e]|]; try discriminate.
    cbn. destruct (as_double v) as [x|] eqn:Hx; [|discriminate].
    cbn. destruct (Calc.format_num M (VFloat x)); [|discriminate].
    intros [= <- <-]. exists v. repeat split; [exact (Hdouble v x Hx) | exact Hx].
  - intros last s f res. unfold CalcGui.equals.
    destruct (CalcGui.safe_eval M s _) as [[v|e]|]; try discriminate.
    cbn. destruct (as_double v) as [x|] eqn:Hx; [|discriminate].
    cbn. destruct (CalcGui.fmt_num M (VFloat x)); [|discriminate].
    intros [= <- <-]. exists v. repeat split; [exact (Hdouble v x Hx) | exact Hx].
  - apply format_num_not_real. assumption.
  - destruct v; try discriminate; reflexivity.
Qed.

(** ** The percent rewriting *)

Lemma span_app (p : ascii → bool) (l a b : list ascii) :
  span p l = (a, b) → l = (a ++ b)%list.
Proof.
  revert a b. induction l as [|c l IH]; intros a b; cbn [span].
  - intros [= <- <-]. reflexivity.
  - destruct (p c).
    + destruct (span p l) as [a' b']. intros [= <- <-].
      cbn [app]. f_equal. apply IH. reflexivity.
    + intros [= <- <-]. reflexivity.
Qed.

Lemma percent_free_app (a b : list ascii) :
  percent_free (a ++ b) = percent_free a && percent_free b.
Proof. apply forallb_app. Qed.

(** Without a [%] there is no match. *)
Lemma match_percent_free (cs : list ascii) :
  percent_free cs = true → CalcGui.match_percent cs = None.
Proof.
  intros Hfree. unfold CalcGui.match_percent.
  destruct (span is_digit cs) as [ip r1] eqn:Hspan.
  apply span_app in Hspan. subst cs.
  rewrite percent_free_app in Hfree. apply andb_true_iff in Hfree as [_ Hr1].
  destruct ip as [|d ip]; [reflexivity|].
  destruct r1 as [|c r1]; [reflexivity|].
  cbn [percent_free forallb] in Hr1. apply andb_true_iff in Hr1 as [Hc Hr1].
  destruct (Ascii.eqb_spec c "%") as [->|Hc']; [discriminate Hc|].
  destruct (Ascii.eqb_spec c ".") as [->|Hdot].
  - destruct (span is_digit r1) as [fp r3] eqn:Hspan2.
    apply span_app in Hspan2. subst r1.
    change (forallb _ ?l) with (percent_free l) in Hr1.
    rewrite percent_free_app in Hr1. apply andb_true_iff in Hr1 as [_ Hr3].
    destruct fp as [|d' fp]; [reflexivity|].
    destruct r3 as [|c3 r3]; [reflexivity|].
    cbn [percent_free forallb] in Hr3. apply andb_true_iff in Hr3 as [Hc3 _].
    destruct (Ascii.eqb_spec c3 "%") as [->|Hc3']; [discriminate Hc3|].
    destruct c3 as [[] [] [] [] [] [] [] []]; try reflexivity; congruence.
  - destruct c as [[] [] [] [] [] [] [] []]; try reflexivity; congruence.
Qed.

Lemma sub_percent_free (fuel : nat) (cs : list ascii) :
  percent_free cs = true → CalcGui.sub_percent fuel cs = cs.
Proof.
  revert cs. induction fuel as [|fuel IH]; intros cs Hfree;
    cbn [CalcGui.sub_percent]; [reflexivity|].
  destruct cs as [|c cs]; [reflexivity|].
  rewrite (match_percent_free _ Hfree).
  cbn [percent_free forallb] in Hfree. apply andb_true_iff in Hfree as [_ Hcs].
  rewrite (IH cs Hcs). reflexivity.
Qed.

(** X11: a text without [%] is left as it is by the percent rewriting, and
    the graphical interface then evaluates it as the line interface does:
    both reject it as a syntax error, or both parse it and the results of the
    two evaluators agree (equal, or calc.py's arity error against an error
    of calc_gui.py). *)
Theorem percent_free_text_unchanged (M : platform) (expr : string)
  (names : gmap string value) :
  percent_free (list_ascii_of_string expr) = true →
  CalcGui.percent_to_mul expr = expr
  ∧ match Calc.safe_eval M expr names, CalcGui.safe_eval M expr names with
    | Some r1, Some r2 => agree r1 r2
    | None, None => True
    | _, _ => False
    end.
Proof.
  intros Hfree.
  assert (Hsame : CalcGui.percent_to_mul expr = expr).
  { unfold CalcGui.percent_to_mul.
    rewrite (sub_percent_free _ _ Hfree).
    apply string_of_list_ascii_of_string. }
  split; [exact Hsame|].
  unfold Calc.safe_eval, CalcGui.safe_eval. rewrite Hsame.
  destruct (parse expr) as [tree| |]; [|left; reflexivity|exact I].
  apply visit_agree.
Qed.

Lemma percent_free_text_unchanged_witness :
  CalcGui.percent_to_mul "7 - sqrt(16)" = "7 - sqrt(16)".
Proof.
  refine (proj1 (percent_free_text_unchanged Sample.glibc "7 - sqrt(16)" ∅ _)).
  reflexivity.
Defined.

(** ** The text of an int, read back *)














(** ** The prompt loop and the window *)

Import Text.


Lemma list_ascii_of_string_app (a b : string) :
  list_ascii_of_string (a +:+ b)
  = (list_ascii_of_string a ++ list_ascii_of_string b)%list.
Proof.
  induction a as [|c a IH]; [reflexivity|].
  cbn. rewrite <- IH. reflexivity.
Qed.







Lemma run_app (M : platform) (ans : float) (l1 l2 : list string) :
  Repl.run M ans (l1 ++ l2)%list
  = '(a1, o1) ← Repl.run M ans l1;
    '(a2, o2) ← Repl.run M a1 l2;
    Some (a2, (o1 ++ o2)%list).
Proof.
  revert ans. induction l1 as [|raw l1 IH]; intros ans.
  - cbn. destruct (Repl.run M ans l2) as [[a2 o2]|]; reflexivity.
  - cbn [app Repl.run].
    destruct (Repl.turn M ans raw) as [[a out]|]; [|reflexivity].
    cbn. rewrite IH.
    destruct (Repl.run M a l1) as [[a1 o1]|]; [|reflexivity].
    cbn. destruct (Repl.run M a1 l2) as [[a2 o2]|]; [|reflexivity].
    cbn. destruct out; reflexivity.
Qed.

(** X15: blank input is skipped.  A line of blanks anywhere in the input of
    the prompt loop changes neither what is written nor [ans], and [=] on
    an entry of blanks changes nothing in the window and shows no error. *)
Theorem blank_input_skipped (M : platform) (raw : string) :
  strip raw = "" →
  (∀ ans before after,
     Repl.run M ans (before ++ raw :: after)%list
     = Repl.run M ans (before ++ after)%list)
  ∧ (∀ st, CalcApp.expr st = raw → CalcApp.equals M st = Some (st, None)).
Proof.
  intros Hblank. split.
  - intros ans before after. rewrite !run_app.
    destruct (Repl.run M ans before) as [[a1 o1]|]; [|reflexivity].
    cbn [mbind option_bind Repl.run]. unfold Repl.turn at 1.
    rewrite Hblank. cbn.
    destruct (Repl.run M a1 after) as [[a2 o2]|]; reflexivity.
  - intros st <-. unfold CalcApp.equals. rewrite Hblank. reflexivity.
Qed.

Lemma blank_input_skipped_witness :
  Repl.run Sample.glibc 0 (["2+3"] ++ "  " :: ["ans*2"])%list
  = Repl.run Sample.glibc 0 (["2+3"] ++ ["ans*2"])%list.
Proof.
  refine (proj1 (blank_input_skipped Sample.glibc "  " _) 0%float
            ["2+3"] ["ans*2"]).
  reflexivity.
Defined.




(** *** The history *)

Lemma set_expr_consistent (M : platform) (st : CalcApp.app) (s : string) :
  consistent M st → consistent M (CalcApp.set_expr st s).
Proof. intros H. exact H. Qed.






(** *** Keys *)

Lemma set_expr_back (st : CalcApp.app) (s : string) :
  CalcApp.set_expr (CalcApp.set_expr st s) (CalcApp.expr st) = st.
Proof. destruct st. reflexivity. Qed.

Lemma drop_last_app (s : string) (c : ascii) :
  drop_last (s +:+ String c "") = s.
Proof.
  unfold drop_last. rewrite list_ascii_of_string_app.
  cbn [list_ascii_of_string]. rewrite removelast_last.
  apply string_of_list_ascii_of_string.
Qed.

(** X18: DEL undoes a key.  A key that appends one character other than
    [=] to the entry, followed by DEL, gives the state of the window
    back. *)
Theorem del_undoes_key (M : platform) (st : CalcApp.app) (c : ascii) :
  c ≠ "="%char →
  ∃ st1, CalcApp.on_key M (String c "") st = Some (st1, None)
         ∧ CalcApp.expr st1 = CalcApp.expr st +:+ String c ""
         ∧ CalcApp.on_key M "del" st1 = Some (st, None).
Proof.
  intros Hc. apply Ascii.eqb_neq in Hc.
  exists (CalcApp.set_expr st (CalcApp.expr st +:+ String c "")).
  split; [|split; [reflexivity|]].
  - unfold CalcApp.on_key. cbn [String.eqb]. rewrite Hc.
    destruct (Ascii.eqb c "a"), (Ascii.eqb c "d"); reflexivity.
  - unfold CalcApp.on_key.
    change (String.eqb "del" "ac") with false.
    change (String.eqb "del" "del") with true.
    cbn [CalcApp.set_expr CalcApp.expr] .
    rewrite drop_last_app.
    destruct st. reflexivity.
Qed.

Lemma del_undoes_key_witness :
  ∃ st1, CalcApp.on_key Sample.glibc "7" (CalcApp.set_expr CalcApp.init "2+")
         = Some (st1, None)
         ∧ CalcApp.expr st1 = "2+" +:+ "7"
         ∧ CalcApp.on_key Sample.glibc "del" st1
           = Some (CalcApp.set_expr CalcApp.init "2+", None).
Proof.
  refine (del_undoes_key Sample.glibc (CalcApp.set_expr CalcApp.init "2+")
            "7"%char _).
  discriminate.
Defined.

Lemma after_eq_skip (l r : list ascii) :
  equals_free l = true → after_eq (l ++ r)%list = after_eq r.
Proof.
  induction l as [|c l IH]; [reflexivity|].
  cbn [equals_free forallb app after_eq].
  intros [Hc Hl]%andb_true_iff. apply negb_true_iff in Hc.
  rewrite Hc. apply IH. exact Hl.
Qed.

(** X19: Use Selected brings a result back.  When the first selected item
    of the list box is [text = result], the text has no [=] and the
    result has no blanks at its ends, the entry gets the result and
    nothing else changes; with nothing selected, or an item without [=],
    nothing changes. *)
Theorem use_selected_restores (st : CalcApp.app) (i : nat) (sel : list nat)
  (s res : string) :
  CalcApp.hlist st !! i = Some (CalcApp.item (s, res)) →
  equals_free (list_ascii_of_string s) = true →
  strip res = res →
  CalcApp.use_selected (i :: sel) st = CalcApp.set_expr st res
  ∧ CalcApp.use_selected [] st = st
  ∧ (∀ j it, CalcApp.hlist st !! j = Some it →
       equals_free (list_ascii_of_string it) = true →
       CalcApp.use_selected (j :: sel) st = st).
Proof.
  intros Hi Hs Hres. split; [|split; [reflexivity|]].
  - unfold CalcApp.use_selected. rewrite Hi.
    unfold CalcApp.item. cbn [fst snd].
    rewrite list_ascii_of_string_app, (after_eq_skip _ _ Hs).
    rewrite list_ascii_of_string_app.
    change (list_ascii_of_string " = ")
      with [" "%char; "="%char; " "%char].
    cbn [app after_eq].
    change (Ascii.eqb " " "=") with false.
    change (Ascii.eqb "=" "=") with true. cbn iota.
    f_equal. rewrite <- Hres at 2. unfold strip.
    rewrite list_ascii_of_string_of_list_ascii.
    cbn [lstrip]. change (is_blank " ") with true. cbn iota. reflexivity.
  - intros j it Hj Hit. unfold CalcApp.use_selected. rewrite Hj.
    rewrite <- (app_nil_r (list_ascii_of_string it)).
    rewrite (after_eq_skip _ _ Hit). reflexivity.
Qed.

Lemma use_selected_restores_witness :
  CalcApp.use_selected [1%nat]
    {| CalcApp.expr := "10"; CalcApp.history_line := "5*2 =";
       CalcApp.last_result := 10;
       CalcApp.history := [("2+3", "5"); ("5*2", "10")];
       CalcApp.hlist := ["5*2 = 10"; "2+3 = 5"] |}
  = {| CalcApp.expr := "5"; CalcApp.history_line := "5*2 =";
       CalcApp.last_result := 10;
       CalcApp.history := [("2+3", "5"); ("5*2", "10")];
       CalcApp.hlist := ["5*2 = 10"; "2+3 = 5"] |}.
Proof.
  refine (proj1 (use_selected_restores
            {| CalcApp.expr := "10"; CalcApp.history_line := "5*2 =";
               CalcApp.last_result := 10;
               CalcApp.history := [("2+3", "5"); ("5*2", "10")];
               CalcApp.hlist := ["5*2 = 10"; "2+3 = 5"] |}
            1%nat [] "2+3" "5" _ _ _)); reflexivity.
Defined.

(** X20: typing never evaluates or erases.  Whatever the key, [on_keypress]
    either leaves the window as it is or appends to the entry the
    character typed or one of the four keypad operators; it shows no
    error. *)
Theorem keypress_only_appends (M : platform) (keysym char : string)
  (st : CalcApp.app) :
  CalcApp.on_keypress M keysym char st = Some (st, None)
  ∨ ∃ t, (t = char ∨ In t ["+"; "-"; "*"; "/"])
         ∧ CalcApp.on_keypress M keysym char st
           = Some (CalcApp.set_expr st (CalcApp.expr st +:+ t), None).
Proof.
  unfold CalcApp.on_keypress.
  destruct (_ && _) eqn:Hch.
  - right. exists char. split; [left; reflexivity|].
    apply andb_true_iff in Hch as [_ Hin].
    apply bool_decide_eq_true in Hin.
    unfold CalcApp.on_key.
    destruct (String.eqb char "ac") eqn:E1.
    { apply String.eqb_eq in E1. subst char. vm_compute in Hin.
      destruct Hin as [? [=]]. }
    destruct (String.eqb char "del") eqn:E2.
    { apply String.eqb_eq in E2. subst char. vm_compute in Hin.
      destruct Hin as [? [=]]. }
    destruct (String.eqb char "=") eqn:E3.
    { apply String.eqb_eq in E3. subst char. vm_compute in Hin.
      destruct Hin as [? [=]]. }
    reflexivity.
  - destruct (list_find _ _) as [[i [k t]]|] eqn:Hfind; [|left; reflexivity].
    right. exists t.
    apply list_find_Some in Hfind as (Hi & _ & _).
    do 4 (destruct i as [|i]; [injection Hi as <- <-;
            split; [right; cbn; tauto|reflexivity]|]).
    discriminate Hi.
Qed.
